(** * EmailNotificationService: a shallow embedding and its properties

    The development follows [src/services/EmailNotificationService.ts]:
    the e-mail fallback channel of the notification service.  JavaScript
    strings are sequences of UTF-16 code units, [process.env] is a finite
    map, the console and the mail transport are effects recorded in a
    trace, and an [async] method is a computation that either returns a
    value (the promise resolves) or throws (the promise rejects). *)

From Stdlib Require Import String Ascii NArith ZArith Lia.
From stdpp Require Import base option list gmap strings pretty.

Local Open Scope N_scope.
Local Open Scope list_scope.

(** ** JavaScript strings *)

Module JS.

(** A UTF-16 code unit, [0 .. 0xFFFF]. *)
Definition codeunit := N.

Definition jsstring := list codeunit.

(** An ASCII literal of the source, one code unit per character. *)
Definition lit (s : string) : jsstring :=
  map N_of_ascii (list_ascii_of_string s).

(** The double quote and the line feed, which the literals below keep
    out of their quoted parts. *)
Definition dq : jsstring := [34].
Definition nl : jsstring := [10].

(** A value that may be [undefined]: [None].  A parameter left out, a
    field a decoded event does not have and an unset variable of
    [process.env] are all [undefined]; [null] is not represented. *)
Definition maybe (A : Type) := option A.

(** [!v] for a string-or-undefined value: the empty string and
    [undefined] are falsy. *)
Definition not_str (v : maybe jsstring) : bool :=
  match v with
  | None => true
  | Some [] => true
  | Some (_ :: _) => false
  end.

(** [a || b] for string-or-undefined [a] and a string [b]. *)
Definition or_str (a : maybe jsstring) (b : jsstring) : jsstring :=
  match a with
  | Some (c :: s) => c :: s
  | _ => b
  end.

(** [`${v}`]: interpolation of a string-or-undefined value. *)
Definition to_str (v : maybe jsstring) : jsstring :=
  match v with
  | Some s => s
  | None => lit "undefined"
  end.

(** [l.join(sep)] on an array of strings. *)
Fixpoint join (sep : jsstring) (l : list jsstring) : jsstring :=
  match l with
  | [] => []
  | [s] => s
  | s :: rest => s ++ sep ++ join sep rest
  end.

(** *** Regular expressions

    The two patterns of the source use character classes, literal
    characters, [+] and sequencing.  [test] on a pattern anchored by [^]
    and [$] decides membership of the whole string, computed here with
    derivatives. *)

Inductive regex : Type :=
| Void : regex
| Eps : regex
| Class : (codeunit -> bool) -> regex
| Cat : regex -> regex -> regex
| Alt : regex -> regex -> regex
| Star : regex -> regex.

Definition Plus (r : regex) : regex := Cat r (Star r).

Definition Chr (c : codeunit) : regex := Class (N.eqb c).

Fixpoint nullable (r : regex) : bool :=
  match r with
  | Void => false
  | Eps => true
  | Class _ => false
  | Cat r1 r2 => nullable r1 && nullable r2
  | Alt r1 r2 => nullable r1 || nullable r2
  | Star _ => true
  end.

Fixpoint deriv (c : codeunit) (r : regex) : regex :=
  match r with
  | Void => Void
  | Eps => Void
  | Class p => if p c then Eps else Void
  | Cat r1 r2 =>
      if nullable r1
      then Alt (Cat (deriv c r1) r2) (deriv c r2)
      else Cat (deriv c r1) r2
  | Alt r1 r2 => Alt (deriv c r1) (deriv c r2)
  | Star r1 => Cat (deriv c r1) (Star r1)
  end.

(** [/^r$/.test(s)] *)
Fixpoint test (r : regex) (s : jsstring) : bool :=
  match s with
  | [] => nullable r
  | c :: s' => test (deriv c r) s'
  end.

(** The language of a pattern, as a relation. *)
Inductive lang : regex -> jsstring -> Prop :=
| lang_eps : lang Eps []
| lang_class p c : p c = true -> lang (Class p) [c]
| lang_cat r1 r2 s1 s2 : lang r1 s1 -> lang r2 s2 -> lang (Cat r1 r2) (s1 ++ s2)
| lang_alt_l r1 r2 s : lang r1 s -> lang (Alt r1 r2) s
| lang_alt_r r1 r2 s : lang r2 s -> lang (Alt r1 r2) s
| lang_star_nil r : lang (Star r) []
| lang_star_cons r s1 s2 : lang r s1 -> lang (Star r) s2 -> lang (Star r) (s1 ++ s2).

(** [\s]: WhiteSpace and LineTerminator code units. *)
Definition is_space (c : codeunit) : bool :=
  ((9 <=? c) && (c <=? 13))          (* \t \n \v \f \r *)
  || (c =? 32) || (c =? 160) || (c =? 5760)
  || ((8192 <=? c) && (c <=? 8202))  (* U+2000 .. U+200A *)
  || (c =? 8232) || (c =? 8233) || (c =? 8239) || (c =? 8287)
  || (c =? 12288) || (c =? 65279).

(** [text.replace(/[cls]/g, fn)]: every code unit of the class is
    replaced by what the callback returns for it. *)
Definition replace_class (cls : codeunit -> bool) (fn : codeunit -> jsstring)
    (text : jsstring) : jsstring :=
  flat_map (fun c => if cls c then fn c else [c]) text.

End JS.

Import JS.

(** ** Pure helpers of the service *)

Definition at_sign : codeunit := 64.
Definition full_stop : codeunit := 46.

(** [[^\s@]] *)
Definition not_space_at (c : codeunit) : bool :=
  negb (is_space c || (c =? at_sign)).

(** [/^[^\s@]+@[^\s@]+\.[^\s@]+$/] *)
Definition emailRegex : regex :=
  Cat (Plus (Class not_space_at))
   (Cat (Chr at_sign)
     (Cat (Plus (Class not_space_at))
       (Cat (Chr full_stop)
         (Plus (Class not_space_at))))).

(** [isValidEmail(email)] *)
Definition isValidEmail (email : maybe jsstring) : bool :=
  match email with
  | None => false                      (* !email, typeof email is not string *)
  | Some [] => false                   (* !email *)
  | Some s => test emailRegex s
  end.

(** The object literal [map] of [escapeHtml]. *)
Definition escape_map : gmap N jsstring :=
  list_to_map
    [ (38, lit "&amp;");
      (60, lit "&lt;");
      (62, lit "&gt;");
      (34, lit "&quot;");
      (39, lit "&#039;") ].

(** The class of the five characters ampersand, less-than, greater-than,
    double quote and apostrophe. *)
Definition html_special (c : codeunit) : bool :=
  (c =? 38) || (c =? 60) || (c =? 62) || (c =? 34) || (c =? 39).

(** [escapeHtml(text)] *)
Definition escapeHtml (text : jsstring) : jsstring :=
  replace_class html_special (fun m => to_str (escape_map !! m)) text.

(** ** Numbers

    [quantity] and the SMTP port are JavaScript numbers.  The service
    only converts them: the interface lists the conversions it uses. *)

Class JSNumber (Num : Type) := {
  (** [`${n}`] *)
  num_to_string : Num -> jsstring;
  (** [Number(v)] *)
  Number_ : maybe jsstring -> Num;
  (** [a || b] on numbers: [b] when [a] is 0 or NaN *)
  num_or : Num -> Num -> Num;
  (** a numeric literal of the source *)
  num_lit : N -> Num
}.

(** ** Data *)

(** [{ name: string; quantity: number; price?: number }] *)
Record Item (Num : Type) := {
  name : jsstring;
  quantity : Num;
  price : maybe Num
}.
Arguments name {Num} _.
Arguments quantity {Num} _.
Arguments price {Num} _.

(** ['ready' | 'preparing'] *)
Inductive EmailType := ready | preparing.

(** The object handed to [transporter.sendMail]. *)
Record MailOptions := {
  from : jsstring;
  to : maybe jsstring;
  subject : jsstring;
  html : jsstring;
  text : jsstring
}.

(** The object handed to [nodemailer.createTransport]. *)
Record TransportOptions (Num : Type) := {
  host : maybe jsstring;
  port : Num;
  secure : bool;
  auth_user : maybe jsstring;
  auth_pass : maybe jsstring
}.

(** [process.env] *)
Abbreviation Env := (gmap string jsstring).

(** A thrown [Error]; the handlers of the service read its [message]. *)
Record Error := { message : jsstring }.

(** What [sendMail] resolves with. *)
Record SentMessageInfo := { messageId : jsstring }.

Inductive SendResult :=
| Sent (info : SentMessageInfo)
| Rejected (error : Error).

(** ** The literals of the source

    Each template literal is cut at its holes; the pieces between the
    holes are the constants below.  Characters outside ASCII are given
    by their UTF-16 code units. *)

(** The subject of the ready e-mail; its first character is U+FFFD in
    the source file. *)
Definition ready_subject : jsstring :=
  [0xFFFD] ++ lit " " ++ [0x00A1] ++ lit "Tu pedido est" ++ [0x00E1]
  ++ lit " listo para recoger!".

Definition preparing_subject : jsstring :=
  [0xD83D; 0xDC68; 0x200D; 0xD83C; 0xDF73] ++ lit " Tu pedido ya est"
  ++ [0x00E1] ++ lit " en preparaci" ++ [0x00F3] ++ lit "n".

(** The sender used when [EMAIL_FROM] gives none. *)
Definition default_from : jsstring :=
  dq ++ lit "Delicious Kitchen" ++ dq ++ lit " <noreply@deliciouskitchen.com>".

Definition default_frontend_url : jsstring := lit "http://localhost:5173".

(** Text of the plain text body of the preparing e-mail, from the opening
    backquote up to the hole of customerName. *)
Definition preparingText_1 : jsstring := concat [
  lit "Hola "
].

(** Text of the plain text body of the preparing e-mail, after the hole of
    customerName up to the hole of itemsList. *)
Definition preparingText_2 : jsstring := concat [
  lit ","; nl;
  nl;
  lit "Sabemos que tienes hambre y queremos notificarte que tu pedido ya est"; [0x00E1]; lit " en preparaci"; [0x00F3]; lit "n."; nl;
  nl;
  lit "Tu orden:"; nl
].

(** Text of the plain text body of the preparing e-mail, after the hole of
    itemsList up to the hole of orderUrl. *)
Definition preparingText_3 : jsstring := concat [
  nl;
  nl;
  lit "Puedes ver el estado de tu pedido en:"; nl
].

(** Text of the plain text body of the preparing e-mail, after the hole of
    orderUrl to the closing backquote. *)
Definition preparingText_4 : jsstring := concat [
  nl;
  nl;
  [0x00A1]; lit "Pronto estar"; [0x00E1]; lit " listo!"; nl;
  nl;
  lit "Gracias por tu preferencia,"; nl;
  lit "Equipo Delicious Kitchen"; nl;
  nl;
  lit "---"; nl;
  lit "Este es un email autom"; [0x00E1]; lit "tico, por favor no respondas a este mensaje."
].

(** Text of the plain text body of the ready e-mail, from the opening
    backquote up to the hole of customerName. *)
Definition readyText_1 : jsstring := concat [
  lit "Hola "
].

(** Text of the plain text body of the ready e-mail, after the hole of
    customerName up to the hole of itemsList. *)
Definition readyText_2 : jsstring := concat [
  lit ","; nl;
  nl;
  [0x00A1]; lit "Tenemos excelentes noticias! Tu pedido est"; [0x00E1]; lit " listo para recoger."; nl;
  nl;
  lit "Tu orden:"; nl
].

(** Text of the plain text body of the ready e-mail, after the hole of
    itemsList up to the hole of orderUrl. *)
Definition readyText_3 : jsstring := concat [
  nl;
  nl;
  lit "Puedes ver el estado de tu pedido en:"; nl
].

(** Text of the plain text body of the ready e-mail, after the hole of
    orderUrl up to the hole of orderUrl. *)
Definition readyText_4 : jsstring := concat [
  nl;
  nl;
  lit "Tambi"; [0x00E9]; lit "n puedes dejar tu rese"; [0x00F1]; lit "a aqu"; [0x00ED]; lit ":"; nl
].

(** Text of the plain text body of the ready e-mail, after the hole of
    orderUrl to the closing backquote. *)
Definition readyText_5 : jsstring := concat [
  nl;
  nl;
  lit "Por favor pasa por nuestro restaurante cuando puedas. "; [0x00A1]; lit "Tu comida te est"; [0x00E1]; lit " esperando!"; nl;
  nl;
  lit "Gracias por tu preferencia,"; nl;
  lit "Equipo Delicious Kitchen"; nl;
  nl;
  lit "---"; nl;
  lit "Este es un email autom"; [0x00E1]; lit "tico, por favor no respondas a este mensaje."
].

(** Text of the list item of both HTML templates, from the opening
    backquote up to the hole of item.quantity. *)
Definition itemHtml_1 : jsstring := concat [
  lit "<li style="; dq; lit "padding: 8px 0; border-bottom: 1px solid #f0f0f0;"; dq; lit ">"; nl;
  lit "        <span style="; dq; lit "color: #333333; font-weight: 500;"; dq; lit ">"
].

(** Text of the list item of both HTML templates, after the hole of
    item.quantity up to the hole of this.escapeHtml(item.name). *)
Definition itemHtml_2 : jsstring := concat [
  lit "x</span> "; nl;
  lit "        <span style="; dq; lit "color: #666666;"; dq; lit ">"
].

(** Text of the list item of both HTML templates, after the hole of
    this.escapeHtml(item.name) to the closing backquote. *)
Definition itemHtml_3 : jsstring := concat [
  lit "</span>"; nl;
  lit "      </li>"
].

(** Text of the HTML template of the preparing e-mail, from the opening
    backquote up to the hole of this.escapeHtml(customerName). *)
Definition preparingHtml_1 : jsstring := concat [
  nl;
  lit "      <!DOCTYPE html>"; nl;
  lit "      <html>"; nl;
  lit "      <head>"; nl;
  lit "        <meta charset="; dq; lit "UTF-8"; dq; lit ">"; nl;
  lit "        <meta name="; dq; lit "viewport"; dq; lit " content="; dq; lit "width=device-width, initial-scale=1.0"; dq; lit ">"; nl;
  lit "        <title>Pedido en Preparaci"; [0x00F3]; lit "n</title>"; nl;
  lit "      </head>"; nl;
  lit "      <body style="; dq; lit "margin: 0; padding: 0; font-family: Arial, sans-serif; background-color: #f4f4f4;"; dq; lit ">"; nl;
  lit "        <table width="; dq; lit "100%"; dq; lit " cellpadding="; dq; lit "0"; dq; lit " cellspacing="; dq; lit "0"; dq; lit " style="; dq; lit "background-color: #f4f4f4; padding: 20px;"; dq; lit ">"; nl;
  lit "          <tr>"; nl;
  lit "            <td align="; dq; lit "center"; dq; lit ">"; nl;
  lit "              <table width="; dq; lit "600"; dq; lit " cellpadding="; dq; lit "0"; dq; lit " cellspacing="; dq; lit "0"; dq; lit " style="; dq; lit "background-color: #ffffff; border-radius: 8px; overflow: hidden; box-shadow: 0 2px 4px rgba(0,0,0,0.1);"; dq; lit ">"; nl;
  lit "                "; nl;
  lit "                <!-- Header -->"; nl;
  lit "                <tr>"; nl;
  lit "                  <td style="; dq; lit "background: linear-gradient(135deg, #ff7e33 0%, #ff5722 100%); padding: 40px 20px; text-align: center;"; dq; lit ">"; nl;
  lit "                    <h1 style="; dq; lit "color: #ffffff; margin: 0; font-size: 28px;"; dq; lit ">"; [0xD83C; 0xDF7D; 0xFE0F]; lit " Delicious Kitchen</h1>"; nl;
  lit "                  </td>"; nl;
  lit "                </tr>"; nl;
  lit "                "; nl;
  lit "                <!-- Body -->"; nl;
  lit "                <tr>"; nl;
  lit "                  <td style="; dq; lit "padding: 40px 30px;"; dq; lit ">"; nl;
  lit "                    <h2 style="; dq; lit "color: #333333; margin: 0 0 20px 0;"; dq; lit ">"; [0x00A1]; lit "Hola "
].

(** Text of the HTML template of the preparing e-mail, after the hole of
    this.escapeHtml(customerName) up to the hole of itemsHtml. *)
Definition preparingHtml_2 : jsstring := concat [
  lit "! "; [0xD83D; 0xDC4B]; lit "</h2>"; nl;
  lit "                    "; nl;
  lit "                    <p style="; dq; lit "color: #666666; font-size: 16px; line-height: 1.6; margin: 0 0 20px 0;"; dq; lit ">"; nl;
  lit "                      Sabemos que tienes hambre "; [0xD83D; 0xDE0B]; lit ", queremos notificarte que <strong style="; dq; lit "color: #ff7e33;"; dq; lit ">tu pedido ya est"; [0x00E1]; lit " en preparaci"; [0x00F3]; lit "n</strong>."; nl;
  lit "                    </p>"; nl;
  lit "                    "; nl;
  lit "                    <div style="; dq; lit "background-color: #fff5f0; border-left: 4px solid #ff7e33; padding: 20px; margin: 30px 0;"; dq; lit ">"; nl;
  lit "                      <p style="; dq; lit "color: #333333; font-size: 16px; margin: 0 0 15px 0; font-weight: bold;"; dq; lit ">Tu orden:</p>"; nl;
  lit "                      <ul style="; dq; lit "list-style: none; padding: 0; margin: 0;"; dq; lit ">"; nl;
  lit "                        "
].

(** Text of the HTML template of the preparing e-mail, after the hole of
    itemsHtml up to the hole of orderUrl. *)
Definition preparingHtml_3 : jsstring := concat [
  nl;
  lit "                      </ul>"; nl;
  lit "                    </div>"; nl;
  lit "                    "; nl;
  lit "                    <p style="; dq; lit "color: #666666; font-size: 16px; line-height: 1.6; margin: 30px 0 20px 0;"; dq; lit ">"; nl;
  lit "                      Nuestros chefs est"; [0x00E1]; lit "n trabajando en tu pedido. "; [0x00A1]; lit "Pronto estar"; [0x00E1]; lit " listo! "; [0xD83D; 0xDC68; 0x200D; 0xD83C; 0xDF73; 0x2728]; nl;
  lit "                    </p>"; nl;
  lit "                    "; nl;
  lit "                    <table width="; dq; lit "100%"; dq; lit " cellpadding="; dq; lit "0"; dq; lit " cellspacing="; dq; lit "0"; dq; lit ">"; nl;
  lit "                      <tr>"; nl;
  lit "                        <td align="; dq; lit "center"; dq; lit " style="; dq; lit "padding: 20px 0;"; dq; lit ">"; nl;
  lit "                          <a href="; dq
].

(** Text of the HTML template of the preparing e-mail, after the hole of
    orderUrl to the closing backquote. *)
Definition preparingHtml_4 : jsstring := concat [
  dq; lit " style="; dq; lit "display: inline-block; background: linear-gradient(135deg, #ff7e33 0%, #ff5722 100%); color: #ffffff; text-decoration: none; padding: 15px 40px; border-radius: 5px; font-size: 16px; font-weight: bold; box-shadow: 0 2px 5px rgba(255,126,51,0.3);"; dq; lit ">"; nl;
  lit "                            Ver estado del pedido"; nl;
  lit "                          </a>"; nl;
  lit "                        </td>"; nl;
  lit "                      </tr>"; nl;
  lit "                    </table>"; nl;
  lit "                    "; nl;
  lit "                    <p style="; dq; lit "color: #999999; font-size: 14px; line-height: 1.6; margin: 30px 0 0 0;"; dq; lit ">"; nl;
  lit "                      Gracias por tu preferencia,<br>"; nl;
  lit "                      <strong style="; dq; lit "color: #ff7e33;"; dq; lit ">Equipo Delicious Kitchen</strong>"; nl;
  lit "                    </p>"; nl;
  lit "                  </td>"; nl;
  lit "                </tr>"; nl;
  lit "                "; nl;
  lit "                <!-- Footer -->"; nl;
  lit "                <tr>"; nl;
  lit "                  <td style="; dq; lit "background-color: #f8f9fa; padding: 20px 30px; text-align: center; border-top: 1px solid #e9ecef;"; dq; lit ">"; nl;
  lit "                    <p style="; dq; lit "color: #999999; font-size: 12px; margin: 0;"; dq; lit ">"; nl;
  lit "                      Este es un email autom"; [0x00E1]; lit "tico, por favor no respondas a este mensaje."; nl;
  lit "                    </p>"; nl;
  lit "                  </td>"; nl;
  lit "                </tr>"; nl;
  lit "                "; nl;
  lit "              </table>"; nl;
  lit "            </td>"; nl;
  lit "          </tr>"; nl;
  lit "        </table>"; nl;
  lit "      </body>"; nl;
  lit "      </html>"; nl;
  lit "    "
].

(** Text of the HTML template of the ready e-mail, from the opening
    backquote up to the hole of this.escapeHtml(customerName). *)
Definition readyHtml_1 : jsstring := concat [
  nl;
  lit "      <!DOCTYPE html>"; nl;
  lit "      <html>"; nl;
  lit "      <head>"; nl;
  lit "        <meta charset="; dq; lit "UTF-8"; dq; lit ">"; nl;
  lit "        <meta name="; dq; lit "viewport"; dq; lit " content="; dq; lit "width=device-width, initial-scale=1.0"; dq; lit ">"; nl;
  lit "        <title>Pedido Listo</title>"; nl;
  lit "      </head>"; nl;
  lit "      <body style="; dq; lit "margin: 0; padding: 0; font-family: Arial, sans-serif; background-color: #f4f4f4;"; dq; lit ">"; nl;
  lit "        <table width="; dq; lit "100%"; dq; lit " cellpadding="; dq; lit "0"; dq; lit " cellspacing="; dq; lit "0"; dq; lit " style="; dq; lit "background-color: #f4f4f4; padding: 20px;"; dq; lit ">"; nl;
  lit "          <tr>"; nl;
  lit "            <td align="; dq; lit "center"; dq; lit ">"; nl;
  lit "              <table width="; dq; lit "600"; dq; lit " cellpadding="; dq; lit "0"; dq; lit " cellspacing="; dq; lit "0"; dq; lit " style="; dq; lit "background-color: #ffffff; border-radius: 8px; overflow: hidden; box-shadow: 0 2px 4px rgba(0,0,0,0.1);"; dq; lit ">"; nl;
  lit "                "; nl;
  lit "                <!-- Header -->"; nl;
  lit "                <tr>"; nl;
  lit "                  <td style="; dq; lit "background: linear-gradient(135deg, #ff7e33 0%, #ff5722 100%); padding: 40px 20px; text-align: center;"; dq; lit ">"; nl;
  lit "                    <h1 style="; dq; lit "color: #ffffff; margin: 0; font-size: 28px;"; dq; lit ">"; [0xD83C; 0xDF7D; 0xFE0F]; lit " Delicious Kitchen</h1>"; nl;
  lit "                  </td>"; nl;
  lit "                </tr>"; nl;
  lit "                "; nl;
  lit "                <!-- Body -->"; nl;
  lit "                <tr>"; nl;
  lit "                  <td style="; dq; lit "padding: 40px 30px;"; dq; lit ">"; nl;
  lit "                    <h2 style="; dq; lit "color: #333333; margin: 0 0 20px 0;"; dq; lit ">"; [0x00A1]; lit "Hola "
].

(** Text of the HTML template of the ready e-mail, after the hole of
    this.escapeHtml(customerName) up to the hole of itemsHtml. *)
Definition readyHtml_2 : jsstring := concat [
  lit "! "; [0xD83D; 0xDC4B]; lit "</h2>"; nl;
  lit "                    "; nl;
  lit "                    <p style="; dq; lit "color: #666666; font-size: 18px; line-height: 1.6; margin: 0 0 20px 0;"; dq; lit ">"; nl;
  lit "                      "; [0x00A1]; lit "Tenemos excelentes noticias! <strong style="; dq; lit "color: #ff7e33;"; dq; lit ">Tu pedido est"; [0x00E1]; lit " listo</strong> para recoger "; [0xD83C; 0xDF89]; nl;
  lit "                    </p>"; nl;
  lit "                    "; nl;
  lit "                    <div style="; dq; lit "background-color: #fff5f0; border-left: 4px solid #ff7e33; padding: 20px; margin: 30px 0;"; dq; lit ">"; nl;
  lit "                      <p style="; dq; lit "color: #333333; font-size: 16px; margin: 0 0 15px 0; font-weight: bold;"; dq; lit ">Tu orden:</p>"; nl;
  lit "                      <ul style="; dq; lit "list-style: none; padding: 0; margin: 0;"; dq; lit ">"; nl;
  lit "                        "
].

(** Text of the HTML template of the ready e-mail, after the hole of
    itemsHtml up to the hole of orderUrl. *)
Definition readyHtml_3 : jsstring := concat [
  nl;
  lit "                      </ul>"; nl;
  lit "                    </div>"; nl;
  lit "                    "; nl;
  lit "                    <p style="; dq; lit "color: #666666; font-size: 16px; line-height: 1.6; margin: 30px 0 20px 0;"; dq; lit ">"; nl;
  lit "                      Por favor pasa por nuestro restaurante cuando puedas. "; [0x00A1]; lit "Tu comida te est"; [0x00E1]; lit " esperando! "; [0xD83E; 0xDD58]; nl;
  lit "                    </p>"; nl;
  lit "                    "; nl;
  lit "                    <table width="; dq; lit "100%"; dq; lit " cellpadding="; dq; lit "0"; dq; lit " cellspacing="; dq; lit "0"; dq; lit ">"; nl;
  lit "                      <tr>"; nl;
  lit "                        <td align="; dq; lit "center"; dq; lit " style="; dq; lit "padding: 10px 0;"; dq; lit ">"; nl;
  lit "                          <a href="; dq
].

(** Text of the HTML template of the ready e-mail, after the hole of
    orderUrl up to the hole of orderUrl. *)
Definition readyHtml_4 : jsstring := concat [
  dq; lit " style="; dq; lit "display: inline-block; background: linear-gradient(135deg, #ff7e33 0%, #ff5722 100%); color: #ffffff; text-decoration: none; padding: 15px 40px; border-radius: 5px; font-size: 16px; font-weight: bold; box-shadow: 0 2px 5px rgba(255,126,51,0.3);"; dq; lit ">"; nl;
  lit "                            Ver estado del pedido"; nl;
  lit "                          </a>"; nl;
  lit "                        </td>"; nl;
  lit "                      </tr>"; nl;
  lit "                      <tr>"; nl;
  lit "                        <td align="; dq; lit "center"; dq; lit " style="; dq; lit "padding: 10px 0;"; dq; lit ">"; nl;
  lit "                          <a href="; dq
].

(** Text of the HTML template of the ready e-mail, after the hole of
    orderUrl to the closing backquote. *)
Definition readyHtml_5 : jsstring := concat [
  dq; lit " style="; dq; lit "display: inline-block; background-color: #ffffff; color: #ff7e33; text-decoration: none; padding: 15px 40px; border-radius: 5px; font-size: 16px; font-weight: bold; border: 2px solid #ff7e33;"; dq; lit ">"; nl;
  lit "                            "; [0x2B50]; lit " Dejar una rese"; [0x00F1]; lit "a"; nl;
  lit "                          </a>"; nl;
  lit "                        </td>"; nl;
  lit "                      </tr>"; nl;
  lit "                    </table>"; nl;
  lit "                    "; nl;
  lit "                    <p style="; dq; lit "color: #999999; font-size: 14px; line-height: 1.6; margin: 30px 0 0 0;"; dq; lit ">"; nl;
  lit "                      Gracias por tu preferencia,<br>"; nl;
  lit "                      <strong style="; dq; lit "color: #ff7e33;"; dq; lit ">Equipo Delicious Kitchen</strong>"; nl;
  lit "                    </p>"; nl;
  lit "                  </td>"; nl;
  lit "                </tr>"; nl;
  lit "                "; nl;
  lit "                <!-- Footer -->"; nl;
  lit "                <tr>"; nl;
  lit "                  <td style="; dq; lit "background-color: #f8f9fa; padding: 20px 30px; text-align: center; border-top: 1px solid #e9ecef;"; dq; lit ">"; nl;
  lit "                    <p style="; dq; lit "color: #999999; font-size: 12px; margin: 0;"; dq; lit ">"; nl;
  lit "                      Este es un email autom"; [0x00E1]; lit "tico, por favor no respondas a este mensaje."; nl;
  lit "                    </p>"; nl;
  lit "                  </td>"; nl;
  lit "                </tr>"; nl;
  lit "                "; nl;
  lit "              </table>"; nl;
  lit "            </td>"; nl;
  lit "          </tr>"; nl;
  lit "        </table>"; nl;
  lit "      </body>"; nl;
  lit "      </html>"; nl;
  lit "    "
].

(** ** Effects

    The console lines are kept by kind, with the values interpolated
    into them. *)

Inductive Level := Log | Warn | Err.

Inductive LogMsg :=
| MsgNoCredentials
| MsgNoCredentialsHint
| MsgVerified
| MsgVerifyError (error_message : jsstring)
| MsgWillNotSend
| MsgNotConfigured (orderNumber : jsstring)
| MsgInvalidEmail (orderNumber customerEmail : jsstring)
| MsgIncomplete
| MsgSent (type : EmailType) (customerEmail : jsstring)
| MsgOrder (orderNumber : jsstring)
| MsgMessageId (id : jsstring)
| MsgSendError (orderNumber error_message : jsstring)
| MsgClosed.

Inductive Event :=
| Console (level : Level) (msg : LogMsg)
| SendMail (mailOptions : MailOptions)
| Verify
| TransportClose.

(** A nodemailer transporter, by its behaviour: what [sendMail] and
    [verify] answer, given everything that happened so far.  nodemailer
    rejects its promises with the [Error] object of the SMTP transport,
    never with [null] or [undefined]. *)
Record Transporter := {
  sendMail_answer : list Event -> MailOptions -> SendResult;
  verify_answer : list Event -> maybe Error
}.

Record World := {
  env : Env;
  trace : list Event
}.

Definition emit (e : Event) (w : World) : World :=
  {| env := env w; trace := trace w ++ [e] |}.

(** The payloads of the [sendMail] calls of a trace, in order. *)
Fixpoint sends (tr : list Event) : list MailOptions :=
  match tr with
  | [] => []
  | SendMail o :: tr' => o :: sends tr'
  | _ :: tr' => sends tr'
  end.

(** The number of [sendMail] calls of a trace. *)
Definition invocations (tr : list Event) : nat := length (sends tr).

(** How a statement sequence ends: normally, or by a thrown error. *)
Inductive Completion (A : Type) :=
| Return (a : A)
| Throw (e : Error).
Arguments Return {A} a.
Arguments Throw {A} e.

Definition M (A : Type) : Type := World -> Completion A * World.

Definition ret {A} (a : A) : M A := fun w => (Return a, w).

Definition bind {A B} (m : M A) (k : A -> M B) : M B :=
  fun w =>
    match m w with
    | (Return a, w') => k a w'
    | (Throw e, w') => (Throw e, w')
    end.

Definition throw {A} (e : Error) : M A := fun w => (Throw e, w).

(** [try { body } catch (error) { handler }] *)
Definition try_catch {A} (body : M A) (handler : Error -> M A) : M A :=
  fun w =>
    match body w with
    | (Return a, w') => (Return a, w')
    | (Throw e, w') => handler e w'
    end.

Declare Scope js_scope.
Delimit Scope js_scope with js.
Notation "x <- m ;; k" := (bind m (fun x => k))
  (at level 100, m at next level, right associativity) : js_scope.
Notation "m ;; k" := (bind m (fun _ => k))
  (at level 100, right associativity) : js_scope.
Local Open Scope js_scope.

(** [process.env[key]] *)
Definition getenv (key : string) : M (maybe jsstring) :=
  fun w => (Return (env w !! key), w).

(** [console.log], [console.warn], [console.error] *)
Definition console (level : Level) (msg : LogMsg) : M unit :=
  fun w => (Return tt, emit (Console level msg) w).

(** The error of a property read or method call on [undefined].  Its
    text depends on the engine; no handler of the service inspects it. *)
Definition TypeError : Error := {| message := lit "TypeError" |}.

(** [v.member]: throws when [v] is [undefined]. *)
Definition deref {A} (v : maybe A) : M A :=
  match v with
  | Some a => ret a
  | None => throw TypeError
  end.

(** [await transporter.sendMail(mailOptions)] *)
Definition sendMail (t : Transporter) (mailOptions : MailOptions)
    : M SentMessageInfo :=
  fun w =>
    match sendMail_answer t (trace w) mailOptions with
    | Sent info => (Return info, emit (SendMail mailOptions) w)
    | Rejected error => (Throw error, emit (SendMail mailOptions) w)
    end.

(** [await transporter.verify()] *)
Definition verify (t : Transporter) : M unit :=
  fun w =>
    match verify_answer t (trace w) with
    | None => (Return tt, emit Verify w)
    | Some error => (Throw error, emit Verify w)
    end.

(** The call [transporter.verify()] alone: the verification starts and
    its promise is pending. *)
Definition verify_call (t : Transporter) : M unit :=
  fun w => (Return tt, emit Verify w).

(** The pending promise of [verify] settles: the [await] on it returns
    or throws. *)
Definition verify_settled (t : Transporter) : M unit :=
  fun w =>
    match verify_answer t (trace w) with
    | None => (Return tt, w)
    | Some error => (Throw error, w)
    end.

(** [transporter.close()]: nodemailer closes its connections and
    returns. *)
Definition transporter_close (t : Transporter) : M unit :=
  fun w => (Return tt, emit TransportClose w).

(** [process.env] *)
Definition process_env : M Env := fun w => (Return (env w), w).

(** ** The service *)

(** The fields of an [EmailNotificationService] object.  [transporter]
    is declared with a definite-assignment assertion and stays
    [undefined] until [initializeTransporter] assigns it. *)
Record EmailNotificationService := {
  transporter : maybe Transporter;
  isConfigured : bool
}.

Section Service.

Context {Num : Type} `{JSNumber Num}.

(** [nodemailer.createTransport] *)
Variable createTransport : TransportOptions Num -> Transporter.

(** [!items || items.length === 0] *)
Definition no_items (items : maybe (list (Item Num))) : bool :=
  match items with
  | None => true
  | Some l => Nat.eqb (length l) 0
  end.

(** [generatePlainTextEmail(orderNumber, customerName, items, type)],
    reading [process.env] as [processEnv]. *)
Definition generatePlainTextEmail (processEnv : Env)
    (orderNumber customerName : jsstring) (items : list (Item Num))
    (type : EmailType) : jsstring :=
  let itemsList :=
    JS.join nl
      (map (fun item =>
              lit "- " ++ num_to_string (quantity item) ++ lit "x " ++ name item)
           items) in
  let frontendUrl := or_str (processEnv !! "FRONTEND_URL"%string) default_frontend_url in
  let orderUrl := frontendUrl ++ lit "/orders/" ++ orderNumber in
  match type with
  | preparing =>
      preparingText_1 ++ customerName ++ preparingText_2 ++ itemsList
      ++ preparingText_3 ++ orderUrl ++ preparingText_4
  | ready =>
      readyText_1 ++ customerName ++ readyText_2 ++ itemsList
      ++ readyText_3 ++ orderUrl ++ readyText_4 ++ orderUrl ++ readyText_5
  end.

(** The callback of [items.map] in both HTML templates. *)
Definition itemHtml (item : Item Num) : jsstring :=
  itemHtml_1 ++ num_to_string (quantity item) ++ itemHtml_2
  ++ escapeHtml (name item) ++ itemHtml_3.

(** [generatePreparingEmailTemplate(orderNumber, customerName, items)] *)
Definition generatePreparingEmailTemplate (processEnv : Env)
    (orderNumber customerName : jsstring) (items : list (Item Num)) : jsstring :=
  let itemsHtml := JS.join [] (map itemHtml items) in
  let frontendUrl := or_str (processEnv !! "FRONTEND_URL"%string) default_frontend_url in
  let orderUrl := frontendUrl ++ lit "/orders/" ++ orderNumber in
  preparingHtml_1 ++ escapeHtml customerName ++ preparingHtml_2 ++ itemsHtml
  ++ preparingHtml_3 ++ orderUrl ++ preparingHtml_4.

(** [generateReadyEmailTemplate(orderNumber, customerName, items)] *)
Definition generateReadyEmailTemplate (processEnv : Env)
    (orderNumber customerName : jsstring) (items : list (Item Num)) : jsstring :=
  let itemsHtml := JS.join [] (map itemHtml items) in
  let frontendUrl := or_str (processEnv !! "FRONTEND_URL"%string) default_frontend_url in
  let orderUrl := frontendUrl ++ lit "/orders/" ++ orderNumber in
  readyHtml_1 ++ escapeHtml customerName ++ readyHtml_2 ++ itemsHtml
  ++ readyHtml_3 ++ orderUrl ++ readyHtml_4 ++ orderUrl ++ readyHtml_5.

(** [verifyConnection()] from its call to its end, the promise of
    [verify] settling at once. *)
Definition verifyConnection (this : EmailNotificationService)
    : M EmailNotificationService :=
  try_catch
    (transport <- deref (transporter this);;
     verify transport;;
     console Log MsgVerified;;
     ret this)
    (fun error =>
       console Err (MsgVerifyError (message error));;
       console Warn MsgWillNotSend;;
       ret {| transporter := transporter this; isConfigured := false |}).

(** [verifyConnection()] up to its [await].  The constructor calls the
    method without awaiting it, so this much runs before the
    constructor returns: [transporter.verify()] is called. *)
Definition verifyConnection_start (this : EmailNotificationService)
    : M EmailNotificationService :=
  try_catch
    (transport <- deref (transporter this);;
     verify_call transport;;
     ret this)
    (fun error =>
       console Err (MsgVerifyError (message error));;
       console Warn MsgWillNotSend;;
       ret {| transporter := transporter this; isConfigured := false |}).

(** [verifyConnection()] after its [await]: what runs later, when the
    promise of [verify] settles.  On an object without a transporter
    no call is pending. *)
Definition verifyConnection_resume (this : EmailNotificationService)
    : M EmailNotificationService :=
  match transporter this with
  | Some transport =>
      try_catch
        (verify_settled transport;;
         console Log MsgVerified;;
         ret this)
        (fun error =>
           console Err (MsgVerifyError (message error));;
           console Warn MsgWillNotSend;;
           ret {| transporter := transporter this; isConfigured := false |})
  | None => ret this
  end.

(** [initializeTransporter()].  Its last statement calls
    [verifyConnection] and does not await it: the call of [verify] is
    made, the rest of the method stays pending. *)
Definition initializeTransporter (this : EmailNotificationService)
    : M EmailNotificationService :=
  smtpHost <- getenv "SMTP_HOST";;
  smtpUser <- getenv "SMTP_USER";;
  smtpPassword <- getenv "SMTP_PASSWORD";;
  if not_str smtpHost || not_str smtpUser || not_str smtpPassword then
    console Warn MsgNoCredentials;;
    console Warn MsgNoCredentialsHint;;
    ret {| transporter := transporter this; isConfigured := false |}
  else
    smtpPort <- getenv "SMTP_PORT";;
    smtpSecure <- getenv "SMTP_SECURE";;
    let transport :=
      createTransport
        {| host := smtpHost;
           port := num_or (Number_ smtpPort) (num_lit 587);
           secure := bool_decide (smtpSecure = Some (lit "true"));
           auth_user := smtpUser;
           auth_pass := smtpPassword |} in
    verifyConnection_start {| transporter := Some transport; isConfigured := true |}.

(** [new EmailNotificationService()]: the field initialisers, then the
    constructor body. *)
Definition new_EmailNotificationService : M EmailNotificationService :=
  initializeTransporter {| transporter := None; isConfigured := false |}.

(** [sendOrderReadyNotification(orderNumber, customerName, customerEmail, items)] *)
Definition sendOrderReadyNotification (this : EmailNotificationService)
    (orderNumber customerName customerEmail : maybe jsstring)
    (items : maybe (list (Item Num))) : M bool :=
  if negb (isConfigured this) then
    console Warn (MsgNotConfigured (to_str orderNumber));;
    ret false
  else if negb (isValidEmail customerEmail) then
    console Warn (MsgInvalidEmail (to_str orderNumber) (to_str customerEmail));;
    ret false
  else if not_str orderNumber || not_str customerName || no_items items then
    console Warn MsgIncomplete;;
    ret false
  else
    try_catch
      (processEnv <- process_env;;
       itemList <- deref items;;
       customer <- deref customerName;;
       let mailOptions :=
         {| from := or_str (processEnv !! "EMAIL_FROM"%string) default_from;
            to := customerEmail;
            subject := ready_subject;
            html := generateReadyEmailTemplate processEnv (to_str orderNumber)
                      customer itemList;
            text := generatePlainTextEmail processEnv (to_str orderNumber)
                      customer itemList ready |} in
       transport <- deref (transporter this);;
       info <- sendMail transport mailOptions;;
       console Log (MsgSent ready (to_str customerEmail));;
       console Log (MsgOrder (to_str orderNumber));;
       console Log (MsgMessageId (messageId info));;
       console Log (MsgMessageId (messageId info));;
       ret true)
      (fun error =>
         console Err (MsgSendError (to_str orderNumber) (message error));;
         ret false).

(** [sendOrderPreparingNotification(orderNumber, customerName, customerEmail, items)] *)
Definition sendOrderPreparingNotification (this : EmailNotificationService)
    (orderNumber customerName customerEmail : maybe jsstring)
    (items : maybe (list (Item Num))) : M bool :=
  if negb (isConfigured this) then
    console Warn (MsgNotConfigured (to_str orderNumber));;
    ret false
  else if negb (isValidEmail customerEmail) then
    console Warn (MsgInvalidEmail (to_str orderNumber) (to_str customerEmail));;
    ret false
  else if not_str orderNumber || not_str customerName || no_items items then
    console Warn MsgIncomplete;;
    ret false
  else
    try_catch
      (processEnv <- process_env;;
       itemList <- deref items;;
       customer <- deref customerName;;
       let mailOptions :=
         {| from := or_str (processEnv !! "EMAIL_FROM"%string) default_from;
            to := customerEmail;
            subject := preparing_subject;
            html := generatePreparingEmailTemplate processEnv (to_str orderNumber)
                      customer itemList;
            text := generatePlainTextEmail processEnv (to_str orderNumber)
                      customer itemList preparing |} in
       transport <- deref (transporter this);;
       info <- sendMail transport mailOptions;;
       console Log (MsgSent preparing (to_str customerEmail));;
       console Log (MsgOrder (to_str orderNumber));;
       console Log (MsgMessageId (messageId info));;
       ret true)
      (fun error =>
         console Err (MsgSendError (to_str orderNumber) (message error));;
         ret false).

(** [close()] *)
Definition close (this : EmailNotificationService) : M unit :=
  match transporter this with
  | Some transport =>
      transporter_close transport;;
      console Log MsgClosed
  | None => ret tt
  end.

End Service.

(** ** A history of calls on one service object

    The callers of the service invoke its methods one after the other;
    the pending [verifyConnection] of the constructor settles somewhere
    in between. *)

Inductive Op (Num : Type) :=
| OpReady (orderNumber customerName customerEmail : maybe jsstring)
    (items : maybe (list (Item Num)))
| OpPreparing (orderNumber customerName customerEmail : maybe jsstring)
    (items : maybe (list (Item Num)))
| OpVerifySettles
| OpClose.
Arguments OpReady {Num} _ _ _ _.
Arguments OpPreparing {Num} _ _ _ _.
Arguments OpVerifySettles {Num}.
Arguments OpClose {Num}.

(** One call: the object afterwards and, for a notification request, the
    boolean its promise resolved with. *)
Definition step {Num} `{JSNumber Num} (this : EmailNotificationService)
    (op : Op Num) : M (EmailNotificationService * list bool) :=
  match op with
  | OpReady o c e i =>
      b <- sendOrderReadyNotification this o c e i;; ret (this, [b])
  | OpPreparing o c e i =>
      b <- sendOrderPreparingNotification this o c e i;; ret (this, [b])
  | OpVerifySettles =>
      this' <- verifyConnection_resume this;; ret (this', [])
  | OpClose =>
      close this;; ret (this, [])
  end.

Fixpoint run {Num} `{JSNumber Num} (this : EmailNotificationService)
    (ops : list (Op Num)) : M (EmailNotificationService * list bool) :=
  match ops with
  | [] => ret (this, [])
  | op :: rest =>
      r <- step this op;;
      r' <- run (fst r) rest;;
      ret (fst r', snd r ++ snd r')
  end.

(** ** Numbers for concrete runs

    The integer fragment of JavaScript numbers: [Number_] reads
    [undefined], the empty string and strings of decimal digits; any
    other string lies outside the fragment and is read as [NaN]. *)

Inductive IntNumber := Int (z : Z) | NaN.

Fixpoint digits_value (acc : N) (s : jsstring) : option N :=
  match s with
  | [] => Some acc
  | c :: s' =>
      if (48 <=? c) && (c <=? 57)
      then digits_value (10 * acc + (c - 48)) s'
      else None
  end.

#[export] Instance IntNumber_JSNumber : JSNumber IntNumber := {
  num_to_string n :=
    match n with
    | Int z => lit (pretty z)
    | NaN => lit "NaN"
    end;
  Number_ v :=
    match v with
    | None => NaN
    | Some s =>
        match digits_value 0 s with
        | Some n => Int (Z.of_N n)
        | None => NaN
        end
    end;
  num_or a b :=
    match a with
    | Int 0%Z => b
    | NaN => b
    | Int _ => a
    end;
  num_lit n := Int (Z.of_N n)
}.

(** ** The address shape, in the words of the specification

    A local part, an at sign, and a domain that has a dot inside it;
    no part is empty and none holds white space or a further at sign. *)

Definition address_part (s : jsstring) : Prop :=
  s <> [] /\ Forall (fun c => not_space_at c = true) s.

Definition email_shape (s : jsstring) : Prop :=
  exists local_part domain tld,
    s = local_part ++ [at_sign] ++ domain ++ [full_stop] ++ tld
    /\ address_part local_part /\ address_part domain /\ address_part tld.

Definition valid_address (v : maybe jsstring) : Prop :=
  exists s, v = Some s /\ email_shape s.

(** ** The entity of one character, in the words of the specification *)

Definition html_entity (c : codeunit) : jsstring :=
  if c =? 38 then lit "&amp;"
  else if c =? 60 then lit "&lt;"
  else if c =? 62 then lit "&gt;"
  else if c =? 34 then lit "&quot;"
  else if c =? 39 then lit "&#039;"
  else [c].

(** ** The payloads of the two flows, as the bodies build them *)

Definition ready_mailOptions {Num} `{JSNumber Num} (processEnv : Env)
    (orderNumber customerName customerEmail : maybe jsstring)
    (items : list (Item Num)) : MailOptions :=
  {| from := or_str (processEnv !! "EMAIL_FROM"%string) default_from;
     to := customerEmail;
     subject := ready_subject;
     html := generateReadyEmailTemplate processEnv (to_str orderNumber)
               (to_str customerName) items;
     text := generatePlainTextEmail processEnv (to_str orderNumber)
               (to_str customerName) items ready |}.

Definition preparing_mailOptions {Num} `{JSNumber Num} (processEnv : Env)
    (orderNumber customerName customerEmail : maybe jsstring)
    (items : list (Item Num)) : MailOptions :=
  {| from := or_str (processEnv !! "EMAIL_FROM"%string) default_from;
     to := customerEmail;
     subject := preparing_subject;
     html := generatePreparingEmailTemplate processEnv (to_str orderNumber)
               (to_str customerName) items;
     text := generatePlainTextEmail processEnv (to_str orderNumber)
               (to_str customerName) items preparing |}.

(** The three guards of both flows, taken together. *)
Definition rejected {Num} (this : EmailNotificationService)
    (orderNumber customerName customerEmail : maybe jsstring)
    (items : maybe (list (Item Num))) : bool :=
  negb (isConfigured this)
  || negb (isValidEmail customerEmail)
  || (not_str orderNumber || not_str customerName || no_items items).

(** What the guards log when one of them fires. *)
Definition guard_warning {Num} (this : EmailNotificationService)
    (orderNumber customerName customerEmail : maybe jsstring)
    (items : maybe (list (Item Num))) : LogMsg :=
  if negb (isConfigured this) then MsgNotConfigured (to_str orderNumber)
  else if negb (isValidEmail customerEmail)
       then MsgInvalidEmail (to_str orderNumber) (to_str customerEmail)
       else MsgIncomplete.

(** None of less-than, greater-than, double quote and apostrophe. *)
Definition markup_free (c : codeunit) : bool :=
  negb ((c =? 60) || (c =? 62) || (c =? 34) || (c =? 39)).

(** Several events at once. *)
Definition emits (evs : list Event) (w : World) : World :=
  {| env := env w; trace := trace w ++ evs |}.

(** ** One flow for both e-mails

    The specification describes a single delivery flow with the kind of
    e-mail as a parameter.  [notify] is that flow, written as the steps
    the two methods share: the guards, one [sendMail] call, and the
    lines logged after it.  The kind selects the payload and the number
    of success lines, nothing else. *)

Definition mailOptions_of {Num} `{JSNumber Num} (type : EmailType)
    (processEnv : Env) (orderNumber customerName customerEmail : maybe jsstring)
    (items : list (Item Num)) : MailOptions :=
  match type with
  | ready =>
      ready_mailOptions processEnv orderNumber customerName customerEmail items
  | preparing =>
      preparing_mailOptions processEnv orderNumber customerName customerEmail items
  end.

(** The lines logged after a successful send; the ready flow logs the
    message id twice. *)
Definition success_lines (type : EmailType)
    (orderNumber customerEmail : maybe jsstring) (info : SentMessageInfo)
    : list Event :=
  [ Console Log (MsgSent type (to_str customerEmail));
    Console Log (MsgOrder (to_str orderNumber));
    Console Log (MsgMessageId (messageId info)) ]
  ++ match type with
     | ready => [Console Log (MsgMessageId (messageId info))]
     | preparing => []
     end.

Definition notify {Num} `{JSNumber Num} (type : EmailType)
    (this : EmailNotificationService)
    (orderNumber customerName customerEmail : maybe jsstring)
    (items : maybe (list (Item Num))) : M bool :=
  fun w =>
    if rejected this orderNumber customerName customerEmail items then
      (Return false,
       emit (Console Warn
               (guard_warning this orderNumber customerName customerEmail items)) w)
    else
      match items, transporter this with
      | Some itemList, Some t =>
          let mailOptions :=
            mailOptions_of type (env w) orderNumber customerName customerEmail
              itemList in
          match sendMail_answer t (trace w) mailOptions with
          | Sent info =>
              (Return true,
               emits (SendMail mailOptions
                      :: success_lines type orderNumber customerEmail info) w)
          | Rejected error =>
              (Return false,
               emits [SendMail mailOptions;
                      Console Err (MsgSendError (to_str orderNumber) (message error))] w)
          end
      | _, _ =>
          (Return false,
           emit (Console Err (MsgSendError (to_str orderNumber) (message TypeError))) w)
      end.

(** The number of notification requests in a history. *)
Definition is_request {Num} (op : Op Num) : bool :=
  match op with
  | OpReady _ _ _ _ | OpPreparing _ _ _ _ => true
  | OpVerifySettles | OpClose => false
  end.

Fixpoint requests {Num} (ops : list (Op Num)) : nat :=
  match ops with
  | [] => 0
  | op :: rest => if is_request op then S (requests rest) else requests rest
  end.

(** [!smtpHost || !smtpUser || !smtpPassword] *)
Definition credentials_missing (processEnv : Env) : bool :=
  not_str (processEnv !! "SMTP_HOST"%string)
  || not_str (processEnv !! "SMTP_USER"%string)
  || not_str (processEnv !! "SMTP_PASSWORD"%string).

(** The envelope of a payload: recipient and sender. *)
Definition envelope (o : MailOptions) : maybe jsstring * jsstring :=
  (to o, from o).



(** ** Concrete runs *)

Definition invalid_login : Error := {| message := lit "Invalid login" |}.

(** A transport whose [sendMail] fails on every call. *)
Definition always_fails : Transporter :=
  {| sendMail_answer := fun _ _ => Rejected invalid_login;
     verify_answer := fun _ => None |}.

(** A transport whose [sendMail] fails on the first call and succeeds
    from the second call on. *)
Definition fails_once : Transporter :=
  {| sendMail_answer := fun tr _ =>
       if Nat.eqb (invocations tr) 0
       then Rejected invalid_login
       else Sent {| messageId := lit "<1@deliciouskitchen.com>" |};
     verify_answer := fun _ => None |}.

(** A transport that accepts every message. *)
Definition always_sends : Transporter :=
  {| sendMail_answer := fun _ _ => Sent {| messageId := lit "<1@deliciouskitchen.com>" |};
     verify_answer := fun _ => None |}.

(** A transport whose verification fails. *)
Definition unreachable_server : Transporter :=
  {| sendMail_answer := fun _ _ => Rejected invalid_login;
     verify_answer := fun _ => Some invalid_login |}.


Definition smtp_settings : list (string * jsstring) :=
  [ ("SMTP_HOST"%string, lit "smtp.gmail.com");
    ("SMTP_USER"%string, lit "kitchen@gmail.com");
    ("SMTP_PASSWORD"%string, lit "app-password") ].

(** An environment with the SMTP credentials and nothing else. *)
Definition smtp_env : Env := list_to_map smtp_settings.

Definition world_smtp : World := {| env := smtp_env; trace := [] |}.

(** An environment with no variable at all. *)
Definition world_bare : World := {| env := empty; trace := [] |}.

(** [smtp_env] with [EMAIL_FROM] set to the empty string. *)
Definition world_blank_sender : World :=
  {| env := <["EMAIL_FROM"%string := []]> smtp_env; trace := [] |}.

(** [smtp_env] with [EMAIL_FROM] set to an address. *)
Definition kitchen_sender : jsstring := lit "Kitchen <kitchen@example.com>".
Definition world_named_sender : World :=
  {| env := <["EMAIL_FROM"%string := kitchen_sender]> smtp_env; trace := [] |}.

Definition ORD_1 : maybe jsstring := Some (lit "ORD-1").
Definition Ana : maybe jsstring := Some (lit "Ana").
Definition ana_address : maybe jsstring := Some (lit "ana@example.com").
Definition tacos : list (Item IntNumber) :=
  [ {| name := lit "Taco"; quantity := Int 2; price := None |} ].

(** The object the constructor builds from [smtp_env] around a given
    transport. *)
Definition service_with (t : Transporter) : EmailNotificationService :=
  {| transporter := Some t; isConfigured := true |}.

(** The object the constructor builds when the credentials are missing. *)
Definition service_unconfigured : EmailNotificationService :=
  {| transporter := None; isConfigured := false |}.

(** ** Notions for the further properties *)

(** The number of markup characters (less-than, greater-than, double
    quote, apostrophe) of a text. *)
Fixpoint markup_count (s : jsstring) : nat :=
  match s with
  | [] => 0
  | c :: s' => if markup_free c then markup_count s' else S (markup_count s')
  end.

(** A payload the transport can take: a recipient that passed
    [isValidEmail], a sender that is not empty, and one of the two
    subjects. *)
Definition well_formed_payload (o : MailOptions) : Prop :=
  isValidEmail (to o) = true
  /\ from o <> []
  /\ (subject o = ready_subject \/ subject o = preparing_subject).

(** The console lines and [sendMail] calls: every event but the calls
    of [verify] and [close] on the transporter. *)
Definition request_event (ev : Event) : bool :=
  match ev with
  | Console _ _ | SendMail _ => true
  | Verify | TransportClose => false
  end.

(** The number of [true] among the answers of a history. *)
Fixpoint successes (bs : list bool) : nat :=
  match bs with
  | [] => 0
  | true :: bs' => S (successes bs')
  | false :: bs' => successes bs'
  end.

(** The options [initializeTransporter] hands to [createTransport]. *)
Definition transport_options {Num} `{JSNumber Num} (processEnv : Env)
    : TransportOptions Num :=
  {| host := processEnv !! "SMTP_HOST"%string;
     port := num_or (Number_ (processEnv !! "SMTP_PORT"%string)) (num_lit 587);
     secure := bool_decide (processEnv !! "SMTP_SECURE"%string = Some (lit "true"));
     auth_user := processEnv !! "SMTP_USER"%string;
     auth_pass := processEnv !! "SMTP_PASSWORD"%string |}.

(** [smtp_env] with the port of implicit TLS and [SMTP_SECURE] set. *)
Definition world_secure : World :=
  {| env := <["SMTP_PORT"%string := lit "465"]>
              (<["SMTP_SECURE"%string := lit "true"]> smtp_env);
     trace := [] |}.

(** * Properties *)

(** Unfolds the effect layer and nothing of the rendered text. *)
Ltac run_body :=
  cbv beta iota delta
    [try_catch bind process_env getenv deref ret throw sendMail verify
     verify_call verify_settled transporter_close console emit emits
     env trace fst snd].


(** ** Regular expressions: [test] decides the language *)

Lemma lang_void_inv s : lang Void s -> False.
Proof. inversion 1. Qed.

Lemma lang_eps_inv s : lang Eps s -> s = [].
Proof. inversion 1; reflexivity. Qed.

Lemma lang_class_inv p s : lang (Class p) s -> exists c, s = [c] /\ p c = true.
Proof. inversion 1; subst; eauto. Qed.

Lemma lang_cat_inv r1 r2 s :
  lang (Cat r1 r2) s -> exists s1 s2, s = s1 ++ s2 /\ lang r1 s1 /\ lang r2 s2.
Proof. inversion 1; subst; eauto. Qed.

Lemma lang_alt_inv r1 r2 s : lang (Alt r1 r2) s -> lang r1 s \/ lang r2 s.
Proof. inversion 1; subst; auto. Qed.

Lemma lang_star_cons_inv r c s :
  lang (Star r) (c :: s) ->
  exists s1 s2, s = s1 ++ s2 /\ lang r (c :: s1) /\ lang (Star r) s2.
Proof.
  intros Hl. remember (Star r) as r' eqn:Er. remember (c :: s) as cs eqn:Ecs.
  revert c s Ecs.
  induction Hl as [| | | | | |r0 s1 s2 H1 _ H2 IH2]; try discriminate.
  inversion Er; subst r0. intros c s Ecs.
  destruct s1 as [|c1 s1]; simpl in Ecs.
  - apply IH2; auto.
  - inversion Ecs; subst. eauto.
Qed.

Lemma nullable_lang r : nullable r = true <-> lang r [].
Proof.
  induction r as [| |p|r1 IH1 r2 IH2|r1 IH1 r2 IH2|r IH]; simpl.
  - split; [discriminate | intros Hl; destruct (lang_void_inv _ Hl)].
  - split; [constructor | reflexivity].
  - split; [discriminate|].
    intros Hl. apply lang_class_inv in Hl as (c & E & _). discriminate.
  - rewrite andb_true_iff, IH1, IH2. split.
    + intros [H1 H2]. apply (lang_cat _ _ [] [] H1 H2).
    + intros Hl. apply lang_cat_inv in Hl as (s1 & s2 & E & H1 & H2).
      symmetry in E. apply app_eq_nil in E as [-> ->]. auto.
  - rewrite orb_true_iff, IH1, IH2. split.
    + intros [H1|H2]; [apply lang_alt_l | apply lang_alt_r]; assumption.
    + apply lang_alt_inv.
  - split; [constructor | reflexivity].
Qed.

Lemma deriv_lang c r : forall s, lang (deriv c r) s <-> lang r (c :: s).
Proof.
  induction r as [| |p|r1 IH1 r2 IH2|r1 IH1 r2 IH2|r IH]; intros s; simpl.
  - split; intros Hl; destruct (lang_void_inv _ Hl).
  - split; intros Hl; [destruct (lang_void_inv _ Hl)|].
    apply lang_eps_inv in Hl. discriminate.
  - destruct (p c) eqn:Ep; split; intros Hl.
    + apply lang_eps_inv in Hl as ->. constructor; assumption.
    + apply lang_class_inv in Hl as (c' & E & _). inversion E. constructor.
    + destruct (lang_void_inv _ Hl).
    + apply lang_class_inv in Hl as (c' & E & Hp). inversion E; subst. congruence.
  - assert (Hcat : lang (Cat (deriv c r1) r2) s -> lang (Cat r1 r2) (c :: s)).
    { intros Hl. apply lang_cat_inv in Hl as (s1 & s2 & -> & H1 & H2).
      apply IH1 in H1. apply (lang_cat _ _ (c :: s1) s2 H1 H2). }
    assert (Hinv : lang (Cat r1 r2) (c :: s) ->
                   lang (Cat (deriv c r1) r2) s \/ (lang r1 [] /\ lang r2 (c :: s))).
    { intros Hl. apply lang_cat_inv in Hl as (s1 & s2 & E & H1 & H2).
      destruct s1 as [|c1 s1]; simpl in E.
      - subst s2. right. auto.
      - inversion E; subst. left. apply lang_cat; [apply IH1|]; assumption. }
    destruct (nullable r1) eqn:En; split; intros Hl.
    + apply lang_alt_inv in Hl as [Hl|Hl]; [auto|].
      apply nullable_lang in En. apply IH2 in Hl.
      apply (lang_cat _ _ [] (c :: s) En Hl).
    + apply Hinv in Hl as [Hl|[_ Hl]].
      * apply lang_alt_l; assumption.
      * apply lang_alt_r, IH2; assumption.
    + auto.
    + apply Hinv in Hl as [Hl|[Hl _]]; [assumption|].
      apply nullable_lang in Hl. congruence.
  - split; intros Hl; apply lang_alt_inv in Hl as [Hl|Hl].
    + apply lang_alt_l, IH1; assumption.
    + apply lang_alt_r, IH2; assumption.
    + apply lang_alt_l, IH1; assumption.
    + apply lang_alt_r, IH2; assumption.
  - split; intros Hl.
    + apply lang_cat_inv in Hl as (s1 & s2 & -> & H1 & H2).
      apply IH in H1. apply (lang_star_cons _ (c :: s1) s2 H1 H2).
    + apply lang_star_cons_inv in Hl as (s1 & s2 & -> & H1 & H2).
      apply lang_cat; [apply IH|]; assumption.
Qed.

Lemma test_lang s : forall r, test r s = true <-> lang r s.
Proof.
  induction s as [|c s IH]; intros r; simpl.
  - apply nullable_lang.
  - rewrite IH. apply deriv_lang.
Qed.

Lemma lang_star_class p s :
  lang (Star (Class p)) s <-> Forall (fun c => p c = true) s.
Proof.
  induction s as [|c s IH].
  - split; constructor.
  - split; intros Hl.
    + apply lang_star_cons_inv in Hl as (s1 & s2 & -> & H1 & H2).
      apply lang_class_inv in H1 as (c' & E & Hp). inversion E; subst.
      constructor; [assumption | apply IH; assumption].
    + inversion Hl; subst.
      apply (lang_star_cons _ [c] s); [constructor; assumption | apply IH; assumption].
Qed.

Lemma lang_plus_class p s :
  lang (Plus (Class p)) s <-> s <> [] /\ Forall (fun c => p c = true) s.
Proof.
  unfold Plus. split.
  - intros Hl. apply lang_cat_inv in Hl as (s1 & s2 & -> & H1 & H2).
    apply lang_class_inv in H1 as (c & -> & Hp).
    apply lang_star_class in H2. split; [discriminate | constructor; assumption].
  - intros [Hne Hall]. destruct s as [|c s]; [congruence|].
    inversion Hall; subst.
    apply (lang_cat _ _ [c] s); [constructor; assumption | apply lang_star_class; assumption].
Qed.

Lemma lang_chr c s : lang (Chr c) s <-> s = [c].
Proof.
  unfold Chr. split.
  - intros Hl. apply lang_class_inv in Hl as (c' & -> & Hc).
    apply N.eqb_eq in Hc. congruence.
  - intros ->. constructor. apply N.eqb_refl.
Qed.

(** The pattern of [isValidEmail] accepts exactly the strings of the
    address shape. *)
Lemma emailRegex_shape s : test emailRegex s = true <-> email_shape s.
Proof.
  rewrite test_lang. unfold emailRegex, email_shape, address_part. split.
  - intros Hl.
    apply lang_cat_inv in Hl as (a & s1 & -> & Ha & Hl).
    apply lang_cat_inv in Hl as (x & s2 & -> & Hx & Hl).
    apply lang_cat_inv in Hl as (b & s3 & -> & Hb & Hl).
    apply lang_cat_inv in Hl as (y & c & -> & Hy & Hc).
    apply lang_chr in Hx as ->. apply lang_chr in Hy as ->.
    apply lang_plus_class in Ha, Hb, Hc.
    exists a, b, c. auto.
  - intros (a & b & c & -> & Ha & Hb & Hc).
    apply lang_plus_class in Ha, Hb, Hc.
    repeat (apply lang_cat; [first [assumption | apply lang_chr; reflexivity]|]).
    assumption.
Qed.

Lemma isValidEmail_spec v : isValidEmail v = true <-> valid_address v.
Proof.
  unfold valid_address. destruct v as [[|c s]|]; simpl.
  - split; [discriminate|]. intros (s & E & Hs). inversion E; subst.
    apply emailRegex_shape in Hs. discriminate.
  - change (test emailRegex (c :: s) = true <-> exists s0, Some (c :: s) = Some s0 /\ email_shape s0).
    rewrite emailRegex_shape. split; [eauto|].
    intros (s0 & E & Hs). inversion E; subst. assumption.
  - split; [discriminate|]. intros (s & E & _). discriminate.
Qed.

Lemma isValidEmail_false v : ~ valid_address v -> isValidEmail v = false.
Proof.
  intros Hn. destruct (isValidEmail v) eqn:E; [|reflexivity].
  apply isValidEmail_spec in E. contradiction.
Qed.

(** ** Traces *)

Lemma sends_app tr1 tr2 : sends (tr1 ++ tr2) = sends tr1 ++ sends tr2.
Proof.
  induction tr1 as [|e tr1 IH]; simpl; [reflexivity|].
  destruct e; simpl; rewrite IH; reflexivity.
Qed.

Lemma invocations_app tr1 tr2 :
  invocations (tr1 ++ tr2) = (invocations tr1 + invocations tr2)%nat.
Proof. unfold invocations. rewrite sends_app, length_app. reflexivity. Qed.

Lemma sends_console w level msg :
  sends (trace (emit (Console level msg) w)) = sends (trace w).
Proof. simpl. rewrite sends_app. simpl. apply app_nil_r. Qed.

Lemma sends_sendMail w o :
  sends (trace (emit (SendMail o) w)) = sends (trace w) ++ [o].
Proof. simpl. rewrite sends_app. reflexivity. Qed.

Lemma env_emit e w : env (emit e w) = env w.
Proof. reflexivity. Qed.

Lemma emit_emits e w : emit e w = emits [e] w.
Proof. reflexivity. Qed.

Lemma sends_emits evs w : sends (trace (emits evs w)) = sends (trace w) ++ sends evs.
Proof. simpl. apply sends_app. Qed.


(** ** The two flows, case by case *)

Section Flows.

Context {Num : Type} `{JSNumber Num}.

Implicit Types (this : EmailNotificationService) (w : World).
Implicit Types (o c e : maybe jsstring) (i : maybe (list (Item Num))).

Lemma rejected_false this o c e i :
  rejected this o c e i = false ->
  isConfigured this = true /\ isValidEmail e = true
  /\ exists customer item items,
       c = Some customer /\ i = Some (item :: items)
       /\ not_str o = false /\ not_str c = false.
Proof.
  unfold rejected. intros Hr.
  apply orb_false_iff in Hr as [Hr H3]. apply orb_false_iff in Hr as [H1 H2].
  apply orb_false_iff in H3 as [H3 H5]. apply orb_false_iff in H3 as [H3 H4].
  apply negb_false_iff in H1, H2.
  destruct c as [customer|]; [|discriminate].
  destruct i as [[|item items]|]; try discriminate.
  repeat split; try assumption. eauto 10.
Qed.

Lemma ready_rejected this o c e i w :
  rejected this o c e i = true ->
  sendOrderReadyNotification this o c e i w
  = (Return false, emit (Console Warn (guard_warning this o c e i)) w).
Proof.
  unfold rejected, sendOrderReadyNotification, guard_warning. intros Hr.
  destruct (negb (isConfigured this)); [reflexivity|].
  destruct (negb (isValidEmail e)); [reflexivity|].
  simpl in Hr. rewrite Hr. reflexivity.
Qed.

Lemma preparing_rejected this o c e i w :
  rejected this o c e i = true ->
  sendOrderPreparingNotification this o c e i w
  = (Return false, emit (Console Warn (guard_warning this o c e i)) w).
Proof.
  unfold rejected, sendOrderPreparingNotification, guard_warning. intros Hr.
  destruct (negb (isConfigured this)); [reflexivity|].
  destruct (negb (isValidEmail e)); [reflexivity|].
  simpl in Hr. rewrite Hr. reflexivity.
Qed.

(** Past the guards, with a transporter: one [sendMail], then the
    success lines or the error line. *)
Ltac past_guards Hr :=
  let H1 := fresh in let H2 := fresh in let H3 := fresh in
  unfold rejected in Hr;
  apply orb_false_iff in Hr as [Hr H3]; apply orb_false_iff in Hr as [H1 H2];
  rewrite H1, H2, H3.

Lemma ready_attempt this o c e items w t :
  rejected this o c e (Some items) = false -> transporter this = Some t ->
  sendOrderReadyNotification this o c e (Some items) w =
    let mailOptions := ready_mailOptions (env w) o c e items in
    match sendMail_answer t (trace w) mailOptions with
    | Sent info =>
        (Return true,
         emits [SendMail mailOptions;
                Console Log (MsgSent ready (to_str e));
                Console Log (MsgOrder (to_str o));
                Console Log (MsgMessageId (messageId info));
                Console Log (MsgMessageId (messageId info))] w)
    | Rejected error =>
        (Return false,
         emits [SendMail mailOptions;
                Console Err (MsgSendError (to_str o) (message error))] w)
    end.
Proof.
  intros Hr Ht. pose proof (rejected_false _ _ _ _ _ Hr) as (_ & _ & cu & ? & ? & -> & _).
  unfold sendOrderReadyNotification. past_guards Hr.
  unfold ready_mailOptions. run_body. rewrite Ht.
  destruct w as [en tr]. run_body.
  destruct (sendMail_answer t tr _); rewrite <- ?app_assoc; reflexivity.
Qed.

Lemma preparing_attempt this o c e items w t :
  rejected this o c e (Some items) = false -> transporter this = Some t ->
  sendOrderPreparingNotification this o c e (Some items) w =
    let mailOptions := preparing_mailOptions (env w) o c e items in
    match sendMail_answer t (trace w) mailOptions with
    | Sent info =>
        (Return true,
         emits [SendMail mailOptions;
                Console Log (MsgSent preparing (to_str e));
                Console Log (MsgOrder (to_str o));
                Console Log (MsgMessageId (messageId info))] w)
    | Rejected error =>
        (Return false,
         emits [SendMail mailOptions;
                Console Err (MsgSendError (to_str o) (message error))] w)
    end.
Proof.
  intros Hr Ht. pose proof (rejected_false _ _ _ _ _ Hr) as (_ & _ & cu & ? & ? & -> & _).
  unfold sendOrderPreparingNotification. past_guards Hr.
  unfold preparing_mailOptions. run_body. rewrite Ht.
  destruct w as [en tr]. run_body.
  destruct (sendMail_answer t tr _); rewrite <- ?app_assoc; reflexivity.
Qed.

(** Past the guards on an object whose [transporter] was never
    assigned: the call on [undefined] throws inside the [try]. *)
Lemma ready_no_transporter this o c e i w :
  rejected this o c e i = false -> transporter this = None ->
  sendOrderReadyNotification this o c e i w =
    (Return false,
     emit (Console Err (MsgSendError (to_str o) (message TypeError))) w).
Proof.
  intros Hr Ht.
  pose proof (rejected_false _ _ _ _ _ Hr) as (_ & _ & cu & it & its & -> & -> & _).
  unfold sendOrderReadyNotification. past_guards Hr.
  run_body. rewrite Ht. reflexivity.
Qed.

Lemma preparing_no_transporter this o c e i w :
  rejected this o c e i = false -> transporter this = None ->
  sendOrderPreparingNotification this o c e i w =
    (Return false,
     emit (Console Err (MsgSendError (to_str o) (message TypeError))) w).
Proof.
  intros Hr Ht.
  pose proof (rejected_false _ _ _ _ _ Hr) as (_ & _ & cu & it & its & -> & -> & _).
  unfold sendOrderPreparingNotification. past_guards Hr.
  run_body. rewrite Ht. reflexivity.
Qed.

End Flows.

(** Both methods are [notify] at their kind. *)
Lemma ready_is_notify {Num : Type} `{JSNumber Num} this o c e
    (i : maybe (list (Item Num))) w :
  sendOrderReadyNotification this o c e i w = notify ready this o c e i w.
Proof.
  unfold notify. destruct (rejected this o c e i) eqn:Hr.
  - apply ready_rejected; assumption.
  - destruct (transporter this) as [t|] eqn:Ht.
    + pose proof (rejected_false _ _ _ _ _ Hr) as (_ & _ & cu & it & its & _ & -> & _).
      rewrite (ready_attempt _ _ _ _ _ _ _ Hr Ht). reflexivity.
    + rewrite (ready_no_transporter _ _ _ _ _ _ Hr Ht). destruct i; reflexivity.
Qed.

Lemma preparing_is_notify {Num : Type} `{JSNumber Num} this o c e
    (i : maybe (list (Item Num))) w :
  sendOrderPreparingNotification this o c e i w = notify preparing this o c e i w.
Proof.
  unfold notify. destruct (rejected this o c e i) eqn:Hr.
  - apply preparing_rejected; assumption.
  - destruct (transporter this) as [t|] eqn:Ht.
    + pose proof (rejected_false _ _ _ _ _ Hr) as (_ & _ & cu & it & its & _ & -> & _).
      rewrite (preparing_attempt _ _ _ _ _ _ _ Hr Ht). reflexivity.
    + rewrite (preparing_no_transporter _ _ _ _ _ _ Hr Ht). destruct i; reflexivity.
Qed.

(** ** Construction, verification and closing *)

Section Lifecycle.

Context {Num : Type} `{JSNumber Num}.
Variable createTransport : TransportOptions Num -> Transporter.

Lemma constructor_without_credentials w :
  credentials_missing (env w) = true ->
  new_EmailNotificationService createTransport w
  = (Return service_unconfigured,
     emits [Console Warn MsgNoCredentials; Console Warn MsgNoCredentialsHint] w).
Proof.
  unfold credentials_missing, new_EmailNotificationService, initializeTransporter.
  intros Hm. run_body. destruct w as [en tr]. run_body. cbn [env] in Hm.
  rewrite Hm. run_body. rewrite <- app_assoc. reflexivity.
Qed.

Lemma constructor_with_credentials w :
  credentials_missing (env w) = false ->
  exists t,
    new_EmailNotificationService createTransport w
    = (Return {| transporter := Some t; isConfigured := true |}, emit Verify w).
Proof.
  unfold credentials_missing, new_EmailNotificationService, initializeTransporter,
    verifyConnection_start.
  intros Hm. run_body. destruct w as [en tr]. run_body. cbn [env] in Hm.
  rewrite Hm. eexists. reflexivity.
Qed.

Lemma verifyConnection_fails this t w error :
  transporter this = Some t -> verify_answer t (trace w) = Some error ->
  verifyConnection this w
  = (Return {| transporter := Some t; isConfigured := false |},
     emits [Verify; Console Err (MsgVerifyError (message error));
            Console Warn MsgWillNotSend] w).
Proof.
  intros Ht Hv. unfold verifyConnection. run_body. rewrite Ht.
  destruct w as [en tr]. run_body. cbn [trace] in Hv. rewrite Hv.
  rewrite <- !app_assoc. reflexivity.
Qed.

Lemma verifyConnection_succeeds this t w :
  transporter this = Some t -> verify_answer t (trace w) = None ->
  verifyConnection this w
  = (Return this, emits [Verify; Console Log MsgVerified] w).
Proof.
  intros Ht Hv. unfold verifyConnection. run_body. rewrite Ht.
  destruct w as [en tr]. run_body. cbn [trace] in Hv. rewrite Hv.
  rewrite <- !app_assoc. reflexivity.
Qed.

(** Whatever the verification answers, it never configures an object:
    [isConfigured] can only fall. *)
Lemma verifyConnection_monotone this w :
  exists this' w',
    verifyConnection this w = (Return this', w')
    /\ transporter this' = transporter this
    /\ (isConfigured this = false -> isConfigured this' = false)
    /\ sends (trace w') = sends (trace w).
Proof.
  destruct (transporter this) as [t|] eqn:Ht.
  - destruct (verify_answer t (trace w)) as [error|] eqn:Hv.
    + rewrite (verifyConnection_fails _ _ _ _ Ht Hv).
      do 2 eexists. split; [reflexivity|].
      rewrite sends_emits. simpl. rewrite app_nil_r. auto.
    + rewrite (verifyConnection_succeeds _ _ _ Ht Hv).
      do 2 eexists. split; [reflexivity|].
      rewrite sends_emits. simpl. rewrite app_nil_r. auto.
  - unfold verifyConnection. run_body. rewrite Ht.
    do 2 eexists. split; [reflexivity|].
    destruct w as [en tr]. simpl. rewrite !sends_app. simpl.
    rewrite !app_nil_r. auto.
Qed.

Lemma close_without_transporter this w :
  transporter this = None -> close this w = (Return tt, w).
Proof. intros Ht. unfold close. rewrite Ht. reflexivity. Qed.

Lemma close_with_transporter this t w :
  transporter this = Some t ->
  close this w = (Return tt, emits [TransportClose; Console Log MsgClosed] w).
Proof.
  intros Ht. unfold close. rewrite Ht. run_body.
  destruct w as [en tr]. run_body. rewrite <- app_assoc. reflexivity.
Qed.

(** The settling of the pending verification, in its three cases. *)
Lemma verifyConnection_resume_fails this t w error :
  transporter this = Some t -> verify_answer t (trace w) = Some error ->
  verifyConnection_resume this w
  = (Return {| transporter := Some t; isConfigured := false |},
     emits [Console Err (MsgVerifyError (message error));
            Console Warn MsgWillNotSend] w).
Proof.
  intros Ht Hv. unfold verifyConnection_resume. rewrite Ht. run_body.
  destruct w as [en tr]. run_body. cbn [trace] in Hv. rewrite Hv.
  rewrite <- !app_assoc. reflexivity.
Qed.

Lemma verifyConnection_resume_succeeds this t w :
  transporter this = Some t -> verify_answer t (trace w) = None ->
  verifyConnection_resume this w = (Return this, emits [Console Log MsgVerified] w).
Proof.
  intros Ht Hv. unfold verifyConnection_resume. rewrite Ht. run_body.
  destruct w as [en tr]. run_body. cbn [trace] in Hv. rewrite Hv. reflexivity.
Qed.

Lemma verifyConnection_resume_idle this w :
  transporter this = None -> verifyConnection_resume this w = (Return this, w).
Proof. intros Ht. unfold verifyConnection_resume. rewrite Ht. reflexivity. Qed.

Lemma verifyConnection_resume_monotone this w :
  exists this' w',
    verifyConnection_resume this w = (Return this', w')
    /\ transporter this' = transporter this
    /\ (isConfigured this = false -> isConfigured this' = false)
    /\ sends (trace w') = sends (trace w).
Proof.
  destruct (transporter this) as [t|] eqn:Ht.
  - destruct (verify_answer t (trace w)) as [error|] eqn:Hv.
    + rewrite (verifyConnection_resume_fails _ _ _ _ Ht Hv).
      do 2 eexists. split; [reflexivity|].
      rewrite sends_emits. simpl. rewrite app_nil_r. auto.
    + rewrite (verifyConnection_resume_succeeds _ _ _ Ht Hv).
      do 2 eexists. split; [reflexivity|].
      rewrite sends_emits. simpl. rewrite app_nil_r. auto.
  - rewrite (verifyConnection_resume_idle _ _ Ht). exists this, w. auto.
Qed.

(** The two halves make the whole: when the call of [verify] does not
    change what the transporter answers, starting and then resuming
    [verifyConnection] is [verifyConnection]. *)
Lemma verifyConnection_start_resume this t w :
  transporter this = Some t ->
  verify_answer t (trace w ++ [Verify]) = verify_answer t (trace w) ->
  bind (verifyConnection_start this) verifyConnection_resume w
  = verifyConnection this w.
Proof.
  intros Ht Hv.
  unfold verifyConnection_start, verifyConnection_resume, verifyConnection.
  run_body. rewrite Ht. destruct w as [en tr]. run_body. rewrite Ht. run_body.
  cbn [trace] in Hv. rewrite Hv.
  destruct (verify_answer t tr); reflexivity.
Qed.

End Lifecycle.

(** ** escapeHtml *)

Lemma escape_lookup m :
  html_special m = true -> to_str (escape_map !! m) = html_entity m.
Proof.
  unfold html_special, html_entity.
  repeat match goal with
         | |- context [?a =? ?b] =>
             destruct (N.eqb_spec a b) as [->|?]; [intros _; vm_compute; reflexivity|]
         end.
  discriminate.
Qed.

Lemma html_entity_other c : html_special c = false -> html_entity c = [c].
Proof.
  unfold html_special, html_entity. intros Hc.
  repeat (apply orb_false_iff in Hc as [Hc ?]).
  repeat match goal with E : (_ =? _) = false |- _ => rewrite E; clear E end.
  reflexivity.
Qed.

Lemma escapeHtml_entities text : escapeHtml text = flat_map html_entity text.
Proof.
  unfold escapeHtml, replace_class.
  induction text as [|c text IH]; [reflexivity|].
  simpl. rewrite IH. f_equal.
  destruct (html_special c) eqn:Ec.
  - apply escape_lookup; assumption.
  - symmetry. apply html_entity_other; assumption.
Qed.

Lemma html_entity_markup_free c : Forall (fun d => markup_free d = true) (html_entity c).
Proof.
  unfold html_entity.
  repeat match goal with
         | |- context [?a =? ?b] =>
             destruct (N.eqb_spec a b) as [->|?];
             [vm_compute; repeat constructor|]
         end.
  constructor; [|constructor]. unfold markup_free.
  repeat match goal with
         | |- context [?a =? ?b] =>
             destruct (N.eqb_spec a b); [congruence|]
         end.
  reflexivity.
Qed.

Lemma join_empty_sep (l : list jsstring) : JS.join [] l = concat l.
Proof.
  induction l as [|s l IH]; [reflexivity|].
  destruct l as [|s' l]; simpl in *.
  - symmetry. apply app_nil_r.
  - rewrite IH. reflexivity.
Qed.

(** ** Histories on an unconfigured object *)

Lemma run_cons {Num : Type} `{JSNumber Num} this (op : Op Num) rest w :
  run this (op :: rest) w =
    match step this op w with
    | (Return r, w1) =>
        match run (fst r) rest w1 with
        | (Return r', w2) => (Return (fst r', snd r ++ snd r'), w2)
        | (Throw error, w2) => (Throw error, w2)
        end
    | (Throw error, w1) => (Throw error, w1)
    end.
Proof.
  simpl. unfold bind at 1. destruct (step this op w) as [[r|error] w1]; [|reflexivity].
  unfold bind. destruct (run (fst r) rest w1) as [[r'|error] w2]; reflexivity.
Qed.

Lemma unconfigured_step {Num : Type} `{JSNumber Num} this (op : Op Num) w :
  isConfigured this = false ->
  exists this' w',
    step this op w
    = (Return (this', if is_request op then [false] else []), w')
    /\ isConfigured this' = false
    /\ sends (trace w') = sends (trace w).
Proof.
  intros Hc.
  assert (Hr : forall o c e (i : maybe (list (Item Num))), rejected this o c e i = true).
  { intros. unfold rejected. rewrite Hc. reflexivity. }
  destruct op as [o c e i|o c e i| |]; simpl.
  - unfold bind. rewrite (ready_rejected _ _ _ _ _ _ (Hr o c e i)).
    do 2 eexists. split; [reflexivity|]. split; [assumption|apply sends_console].
  - unfold bind. rewrite (preparing_rejected _ _ _ _ _ _ (Hr o c e i)).
    do 2 eexists. split; [reflexivity|]. split; [assumption|apply sends_console].
  - destruct (verifyConnection_resume_monotone this w) as (this' & w' & E & _ & Hm & Hs).
    unfold bind. rewrite E. do 2 eexists. split; [reflexivity|]. auto.
  - destruct (transporter this) as [t|] eqn:Ht; unfold bind.
    + rewrite (close_with_transporter _ _ _ Ht).
      do 2 eexists. split; [reflexivity|]. split; [assumption|].
      rewrite sends_emits. apply app_nil_r.
    + rewrite (close_without_transporter _ _ Ht).
      do 2 eexists. split; [reflexivity|]. auto.
Qed.

Lemma unconfigured_run {Num : Type} `{JSNumber Num} (ops : list (Op Num)) :
  forall this w,
    isConfigured this = false ->
    exists this' w',
      run this ops w = (Return (this', repeat false (requests ops)), w')
      /\ isConfigured this' = false
      /\ sends (trace w') = sends (trace w).
Proof.
  induction ops as [|op rest IH]; intros this w Hc.
  - exists this, w. auto.
  - destruct (unconfigured_step this op w Hc) as (this1 & w1 & E1 & Hc1 & Hs1).
    destruct (IH this1 w1 Hc1) as (this2 & w2 & E2 & Hc2 & Hs2).
    exists this2, w2. rewrite run_cons, E1. cbn [fst snd]. rewrite E2. cbn [fst snd].
    split; [|split; [assumption | congruence]].
    simpl. destruct (is_request op); reflexivity.
Qed.

(** ** One attempt, whatever the transport answers *)

Lemma ready_sends {Num : Type} `{JSNumber Num} this o c e
    (items : list (Item Num)) w t :
  rejected this o c e (Some items) = false -> transporter this = Some t ->
  sends (trace (snd (sendOrderReadyNotification this o c e (Some items) w)))
  = sends (trace w) ++ [ready_mailOptions (env w) o c e items].
Proof.
  intros Hr Ht. rewrite (ready_attempt _ _ _ _ _ _ _ Hr Ht). cbv zeta.
  destruct (sendMail_answer t (trace w) _); cbn [snd]; rewrite sends_emits; reflexivity.
Qed.

Lemma preparing_sends {Num : Type} `{JSNumber Num} this o c e
    (items : list (Item Num)) w t :
  rejected this o c e (Some items) = false -> transporter this = Some t ->
  sends (trace (snd (sendOrderPreparingNotification this o c e (Some items) w)))
  = sends (trace w) ++ [preparing_mailOptions (env w) o c e items].
Proof.
  intros Hr Ht. rewrite (preparing_attempt _ _ _ _ _ _ _ Hr Ht). cbv zeta.
  destruct (sendMail_answer t (trace w) _); cbn [snd]; rewrite sends_emits; reflexivity.
Qed.

(** * The properties of the specification, one by one *)

(** C1, evaluated: against a transport that fails on every call, a
    request that passes all guards makes one [sendMail] call, logs the
    error and resolves with [false]; there is no second or third
    attempt and no waiting.  The service is the one the constructor
    builds, and the request behaves alike before and after the
    constructor's call of [verify]. *)
Theorem C1_always_failing_transport_one_attempt :
  new_EmailNotificationService (fun _ : TransportOptions IntNumber => always_fails)
    world_smtp
  = (Return (service_with always_fails), emit Verify world_smtp)
  /\ rejected (service_with always_fails) ORD_1 Ana ana_address (Some tacos) = false
  /\ sendOrderReadyNotification (service_with always_fails) ORD_1 Ana ana_address
       (Some tacos) world_smtp
     = (Return false,
        emits [SendMail (ready_mailOptions smtp_env ORD_1 Ana ana_address tacos);
               Console Err (MsgSendError (lit "ORD-1") (lit "Invalid login"))]
          world_smtp)
  /\ invocations
       (trace (snd (sendOrderReadyNotification (service_with always_fails) ORD_1 Ana
                      ana_address (Some tacos) world_smtp))) = 1%nat
  /\ sendOrderReadyNotification (service_with always_fails) ORD_1 Ana ana_address
       (Some tacos) (emit Verify world_smtp)
     = (Return false,
        emits [SendMail (ready_mailOptions smtp_env ORD_1 Ana ana_address tacos);
               Console Err (MsgSendError (lit "ORD-1") (lit "Invalid login"))]
          (emit Verify world_smtp))
  /\ invocations
       (trace (snd (sendOrderReadyNotification (service_with always_fails) ORD_1 Ana
                      ana_address (Some tacos) (emit Verify world_smtp)))) = 1%nat.
Proof.
  assert (Hr : rejected (service_with always_fails) ORD_1 Ana ana_address (Some tacos)
               = false) by (vm_compute; reflexivity).
  split; [reflexivity|]. split; [exact Hr|].
  rewrite (ready_attempt _ _ _ _ _ world_smtp always_fails Hr eq_refl).
  rewrite (ready_attempt _ _ _ _ _ (emit Verify world_smtp) always_fails Hr eq_refl).
  repeat split; reflexivity.
Qed.

(** C2: a request whose recipient address does not have the shape
    local part, at sign, domain with a dot never reaches the transport:
    both flows return [false], the trace gains one warning and no
    [sendMail] call. *)
Theorem C2_invalid_address_rejected_without_send {Num : Type} `{JSNumber Num}
    (this : EmailNotificationService)
    (orderNumber customerName customerEmail : maybe jsstring)
    (items : maybe (list (Item Num))) (w : World) :
  ~ valid_address customerEmail ->
  exists msg,
    sendOrderReadyNotification this orderNumber customerName customerEmail items w
    = (Return false, emit (Console Warn msg) w)
    /\ sendOrderPreparingNotification this orderNumber customerName customerEmail items w
       = (Return false, emit (Console Warn msg) w)
    /\ invocations (trace (emit (Console Warn msg) w)) = invocations (trace w).
Proof.
  intros Hbad. apply isValidEmail_false in Hbad.
  assert (Hr : rejected this orderNumber customerName customerEmail items = true).
  { unfold rejected. rewrite Hbad. simpl. rewrite orb_true_r. reflexivity. }
  exists (guard_warning this orderNumber customerName customerEmail items).
  rewrite (ready_rejected _ _ _ _ _ _ Hr), (preparing_rejected _ _ _ _ _ _ Hr).
  repeat split. unfold invocations. rewrite sends_console. reflexivity.
Qed.

(** C2 at the address [not-an-email], on a configured service. *)
Lemma C2_witness_not_an_email :
  ~ valid_address (Some (lit "not-an-email"))
  /\ exists msg,
       sendOrderReadyNotification (service_with always_sends) ORD_1 Ana
         (Some (lit "not-an-email")) (Some tacos) world_smtp
       = (Return false, emit (Console Warn msg) world_smtp)
       /\ sendOrderPreparingNotification (service_with always_sends) ORD_1 Ana
            (Some (lit "not-an-email")) (Some tacos) world_smtp
          = (Return false, emit (Console Warn msg) world_smtp)
       /\ invocations (trace (emit (Console Warn msg) world_smtp))
          = invocations (trace world_smtp).
Proof.
  assert (Hbad : ~ valid_address (Some (lit "not-an-email"))).
  { intros Hv. apply isValidEmail_spec in Hv. vm_compute in Hv. discriminate. }
  split; [exact Hbad|].
  apply (C2_invalid_address_rejected_without_send
           (service_with always_sends) ORD_1 Ana (Some (lit "not-an-email"))
           (Some tacos) world_smtp Hbad).
Defined.

(** C3: an object that reports itself unconfigured answers every
    request [false] without a [sendMail] call, and stays unconfigured
    through any later history of requests, verification and closing.
    It gets there when the credentials are missing at construction and
    when the connection verification fails. *)
Theorem C3_unconfigured_rejects_every_request {Num : Type} `{JSNumber Num}
    (createTransport : TransportOptions Num -> Transporter) :
  (forall w,
     credentials_missing (env w) = true ->
     exists this w',
       new_EmailNotificationService createTransport w = (Return this, w')
       /\ isConfigured this = false
       /\ sends (trace w') = sends (trace w))
  /\ (forall this t w error,
        transporter this = Some t ->
        verify_answer t (trace w) = Some error ->
        exists this' w',
          verifyConnection this w = (Return this', w')
          /\ isConfigured this' = false
          /\ sends (trace w') = sends (trace w))
  /\ (forall this (ops : list (Op Num)) w,
        isConfigured this = false ->
        exists this' w',
          run this ops w = (Return (this', repeat false (requests ops)), w')
          /\ isConfigured this' = false
          /\ sends (trace w') = sends (trace w)).
Proof.
  split; [|split].
  - intros w Hm. rewrite (constructor_without_credentials _ _ Hm).
    do 2 eexists. split; [reflexivity|]. split; [reflexivity|].
    rewrite sends_emits. apply app_nil_r.
  - intros this t w error Ht Hv. rewrite (verifyConnection_fails _ _ _ _ Ht Hv).
    do 2 eexists. split; [reflexivity|]. split; [reflexivity|].
    rewrite sends_emits. apply app_nil_r.
  - intros this ops w Hc. apply unconfigured_run; assumption.
Qed.

(** C3 at an environment without credentials, at a server that fails
    the verification, and at a history of three requests with a
    settled verification and a close in between. *)
Lemma C3_witness_unconfigured_history :
  let history : list (Op IntNumber) :=
    [ OpReady ORD_1 Ana ana_address (Some tacos);
      OpVerifySettles;
      OpPreparing ORD_1 Ana ana_address (Some tacos);
      OpClose;
      OpReady ORD_1 Ana ana_address (Some tacos) ] in
  (credentials_missing (env world_bare) = true
   /\ exists this w',
        new_EmailNotificationService (fun _ : TransportOptions IntNumber => always_sends)
          world_bare = (Return this, w')
        /\ isConfigured this = false
        /\ sends (trace w') = sends (trace world_bare))
  /\ (transporter (service_with unreachable_server) = Some unreachable_server
      /\ verify_answer unreachable_server (trace world_smtp) = Some invalid_login
      /\ exists this' w',
           verifyConnection (service_with unreachable_server) world_smtp = (Return this', w')
           /\ isConfigured this' = false
           /\ sends (trace w') = sends (trace world_smtp))
  /\ (isConfigured service_unconfigured = false
      /\ exists this' w',
           run service_unconfigured history world_bare
           = (Return (this', [false; false; false]), w')
           /\ isConfigured this' = false
           /\ sends (trace w') = sends (trace world_bare)).
Proof.
  intros history.
  pose proof (C3_unconfigured_rejects_every_request
                (fun _ : TransportOptions IntNumber => always_sends)) as (P1 & P2 & P3).
  split; [|split].
  - split; [reflexivity|]. apply P1. reflexivity.
  - split; [reflexivity|]. split; [reflexivity|].
    apply (P2 (service_with unreachable_server) unreachable_server world_smtp invalid_login);
      reflexivity.
  - split; [reflexivity|].
    apply (P3 service_unconfigured history world_bare). reflexivity.
Defined.

(** C4: neither flow ever throws.  Whatever the object, the arguments
    and the transport do, the promise resolves with a boolean, and the
    boolean is [true] only when [sendMail] resolved; a rejected
    [sendMail] (or any other error inside the [try]) gives [false]. *)
Theorem C4_flows_never_throw {Num : Type} `{JSNumber Num}
    (this : EmailNotificationService)
    (orderNumber customerName customerEmail : maybe jsstring)
    (items : maybe (list (Item Num))) (w : World) :
  (exists b w',
     sendOrderReadyNotification this orderNumber customerName customerEmail items w
     = (Return b, w')
     /\ (b = false
         \/ exists t itemList info,
              transporter this = Some t /\ items = Some itemList
              /\ sendMail_answer t (trace w)
                   (ready_mailOptions (env w) orderNumber customerName
                      customerEmail itemList) = Sent info))
  /\ (exists b w',
        sendOrderPreparingNotification this orderNumber customerName customerEmail items w
        = (Return b, w')
        /\ (b = false
            \/ exists t itemList info,
                 transporter this = Some t /\ items = Some itemList
                 /\ sendMail_answer t (trace w)
                      (preparing_mailOptions (env w) orderNumber customerName
                         customerEmail itemList) = Sent info)).
Proof.
  destruct (rejected this orderNumber customerName customerEmail items) eqn:Hr.
  - rewrite (ready_rejected _ _ _ _ _ _ Hr), (preparing_rejected _ _ _ _ _ _ Hr).
    split; do 2 eexists; (split; [reflexivity | left; reflexivity]).
  - destruct (transporter this) as [t|] eqn:Ht.
    + pose proof (rejected_false _ _ _ _ _ Hr) as (_ & _ & cu & it & its & _ & -> & _).
      rewrite (ready_attempt _ _ _ _ _ _ _ Hr Ht), (preparing_attempt _ _ _ _ _ _ _ Hr Ht).
      cbv zeta. split.
      * destruct (sendMail_answer t (trace w) (ready_mailOptions _ _ _ _ _)) eqn:Ea;
          do 2 eexists; (split; [reflexivity|]); [right | left; reflexivity].
        eauto 10.
      * destruct (sendMail_answer t (trace w) (preparing_mailOptions _ _ _ _ _)) eqn:Ea;
          do 2 eexists; (split; [reflexivity|]); [right | left; reflexivity].
        eauto 10.
    + rewrite (ready_no_transporter _ _ _ _ _ _ Hr Ht),
        (preparing_no_transporter _ _ _ _ _ _ Hr Ht).
      split; do 2 eexists; (split; [reflexivity | left; reflexivity]).
Qed.

(** C5, evaluated: against a transport that fails on the first call and
    succeeds on the second, a request that passes all guards makes one
    [sendMail] call and resolves with [false]; the call that would have
    succeeded is never made. *)
Theorem C5_fails_once_transport_one_attempt :
  let mailOptions := ready_mailOptions smtp_env ORD_1 Ana ana_address tacos in
  sendMail_answer fails_once [] mailOptions = Rejected invalid_login
  /\ sendMail_answer fails_once [SendMail mailOptions] mailOptions
     = Sent {| messageId := lit "<1@deliciouskitchen.com>" |}
  /\ rejected (service_with fails_once) ORD_1 Ana ana_address (Some tacos) = false
  /\ sendOrderReadyNotification (service_with fails_once) ORD_1 Ana ana_address
       (Some tacos) world_smtp
     = (Return false,
        emits [SendMail mailOptions;
               Console Err (MsgSendError (lit "ORD-1") (lit "Invalid login"))]
          world_smtp)
  /\ invocations
       (trace (snd (sendOrderReadyNotification (service_with fails_once) ORD_1 Ana
                      ana_address (Some tacos) world_smtp))) = 1%nat.
Proof.
  intros mailOptions.
  assert (Hr : rejected (service_with fails_once) ORD_1 Ana ana_address (Some tacos)
               = false) by (vm_compute; reflexivity).
  split; [reflexivity|]. split; [reflexivity|]. split; [exact Hr|].
  rewrite (ready_attempt _ _ _ _ _ world_smtp fails_once Hr eq_refl).
  split; reflexivity.
Qed.




(** C7 as stated fails when [EMAIL_FROM] is set to the empty string:
    the payload carries the default sender, not the value of the
    variable. *)
Lemma C7_counterexample_blank_EMAIL_FROM :
  env world_blank_sender !! "EMAIL_FROM"%string = Some []
  /\ map from
       (sends (trace (snd (sendOrderReadyNotification (service_with always_sends)
                             ORD_1 Ana ana_address (Some tacos) world_blank_sender))))
     = [default_from]
  /\ default_from <> [].
Proof.
  split; [vm_compute; reflexivity|]. split; [|discriminate].
  rewrite (ready_sends _ _ _ _ _ world_blank_sender always_sends);
    [|vm_compute; reflexivity|reflexivity].
  vm_compute. reflexivity.
Qed.

(** C7, amended: a request that reaches the send step hands the
    transport one payload with the fields [to], [from], [subject],
    [html] and [text]; [to] is the recipient address of the request,
    and [from] is the value of [EMAIL_FROM] when that is a non-empty
    string and the default sender when [EMAIL_FROM] is unset or
    empty. *)
Theorem C7_payload_fields {Num : Type} `{JSNumber Num}
    (this : EmailNotificationService) (t : Transporter)
    (orderNumber customerName customerEmail : maybe jsstring)
    (items : list (Item Num)) (w : World) :
  rejected this orderNumber customerName customerEmail (Some items) = false ->
  transporter this = Some t ->
  let sender :=
    match env w !! "EMAIL_FROM"%string with
    | Some (c :: s) => c :: s
    | Some [] => default_from
    | None => default_from
    end in
  sends (trace (snd (sendOrderReadyNotification this orderNumber customerName
                       customerEmail (Some items) w)))
  = sends (trace w)
    ++ [ {| from := sender;
            to := customerEmail;
            subject := ready_subject;
            html := generateReadyEmailTemplate (env w) (to_str orderNumber)
                      (to_str customerName) items;
            text := generatePlainTextEmail (env w) (to_str orderNumber)
                      (to_str customerName) items ready |} ]
  /\ sends (trace (snd (sendOrderPreparingNotification this orderNumber customerName
                          customerEmail (Some items) w)))
     = sends (trace w)
       ++ [ {| from := sender;
               to := customerEmail;
               subject := preparing_subject;
               html := generatePreparingEmailTemplate (env w) (to_str orderNumber)
                         (to_str customerName) items;
               text := generatePlainTextEmail (env w) (to_str orderNumber)
                         (to_str customerName) items preparing |} ].
Proof.
  intros Hr Ht sender.
  rewrite (ready_sends _ _ _ _ _ _ _ Hr Ht), (preparing_sends _ _ _ _ _ _ _ Hr Ht).
  unfold ready_mailOptions, preparing_mailOptions, or_str. subst sender.
  destruct (env w !! "EMAIL_FROM"%string) as [[|c s]|]; split; reflexivity.
Qed.

(** C7 with [EMAIL_FROM] set to an address (ready flow) and with
    [EMAIL_FROM] unset (preparing flow). *)
Lemma C7_witness_named_sender :
  rejected (service_with always_sends) ORD_1 Ana ana_address (Some tacos) = false
  /\ transporter (service_with always_sends) = Some always_sends
  /\ map envelope
       (sends (trace (snd (sendOrderReadyNotification (service_with always_sends)
                             ORD_1 Ana ana_address (Some tacos) world_named_sender))))
     = [(ana_address, kitchen_sender)]
  /\ map envelope
       (sends (trace (snd (sendOrderPreparingNotification (service_with always_sends)
                             ORD_1 Ana ana_address (Some tacos) world_smtp))))
     = [(ana_address, default_from)].
Proof.
  assert (Hr : rejected (service_with always_sends) ORD_1 Ana ana_address (Some tacos)
               = false) by (vm_compute; reflexivity).
  split; [exact Hr|]. split; [reflexivity|]. split.
  - rewrite (proj1 (C7_payload_fields (service_with always_sends) always_sends
                      ORD_1 Ana ana_address tacos world_named_sender Hr eq_refl)).
    reflexivity.
  - rewrite (proj2 (C7_payload_fields (service_with always_sends) always_sends
                      ORD_1 Ana ana_address tacos world_smtp Hr eq_refl)).
    reflexivity.
Defined.

(** C8: a request whose item list is missing or empty is answered
    [false] by both flows, with one warning and no [sendMail] call,
    whatever the other arguments are: also when the order number, the
    customer name and a valid address are all present. *)
Theorem C8_missing_or_empty_items_rejected {Num : Type} `{JSNumber Num}
    (this : EmailNotificationService)
    (orderNumber customerName customerEmail : maybe jsstring)
    (items : maybe (list (Item Num))) (w : World) :
  items = None \/ items = Some [] ->
  let warned :=
    emit (Console Warn
            (guard_warning this orderNumber customerName customerEmail items)) w in
  sendOrderReadyNotification this orderNumber customerName customerEmail items w
  = (Return false, warned)
  /\ sendOrderPreparingNotification this orderNumber customerName customerEmail items w
     = (Return false, warned)
  /\ sends (trace warned) = sends (trace w).
Proof.
  intros Hi warned.
  assert (Hr : rejected this orderNumber customerName customerEmail items = true).
  { unfold rejected. destruct Hi as [-> | ->]; simpl; rewrite !orb_true_r; reflexivity. }
  rewrite (ready_rejected _ _ _ _ _ _ Hr), (preparing_rejected _ _ _ _ _ _ Hr).
  repeat split. apply sends_console.
Qed.

(** C8 at an empty item list, with every other field present and
    valid: the incomplete-data guard fires. *)
Lemma C8_witness_empty_items :
  let items : maybe (list (Item IntNumber)) := Some [] in
  (items = None \/ items = Some [])
  /\ isValidEmail ana_address = true
  /\ sendOrderReadyNotification (service_with always_sends) ORD_1 Ana ana_address
       items world_smtp
     = (Return false, emit (Console Warn MsgIncomplete) world_smtp)
  /\ sendOrderPreparingNotification (service_with always_sends) ORD_1 Ana ana_address
       items world_smtp
     = (Return false, emit (Console Warn MsgIncomplete) world_smtp)
  /\ sends (trace (emit (Console Warn MsgIncomplete) world_smtp)) = sends (trace world_smtp).
Proof.
  intros items. split; [right; reflexivity|]. split; [vm_compute; reflexivity|].
  apply (C8_missing_or_empty_items_rejected (service_with always_sends)
           ORD_1 Ana ana_address items world_smtp).
  right; reflexivity.
Defined.

(** C9: [escapeHtml] replaces every ampersand, less-than, greater-than,
    double quote and apostrophe by its entity and keeps every other
    character, so that no markup character is left in its result; both
    HTML templates interpolate the customer name and every item name
    through [escapeHtml]. *)
Theorem C9_escapeHtml_entities_and_templates {Num : Type} `{JSNumber Num} :
  (forall text, escapeHtml text = flat_map html_entity text)
  /\ (forall text, Forall (fun c => markup_free c = true) (escapeHtml text))
  /\ (forall processEnv orderNumber customerName (items : list (Item Num)),
        let orderUrl :=
          or_str (processEnv !! "FRONTEND_URL"%string) default_frontend_url
          ++ lit "/orders/" ++ orderNumber in
        generateReadyEmailTemplate processEnv orderNumber customerName items
        = readyHtml_1 ++ escapeHtml customerName ++ readyHtml_2
          ++ flat_map (fun item =>
                         itemHtml_1 ++ num_to_string (quantity item) ++ itemHtml_2
                         ++ escapeHtml (name item) ++ itemHtml_3) items
          ++ readyHtml_3 ++ orderUrl ++ readyHtml_4 ++ orderUrl ++ readyHtml_5)
  /\ (forall processEnv orderNumber customerName (items : list (Item Num)),
        let orderUrl :=
          or_str (processEnv !! "FRONTEND_URL"%string) default_frontend_url
          ++ lit "/orders/" ++ orderNumber in
        generatePreparingEmailTemplate processEnv orderNumber customerName items
        = preparingHtml_1 ++ escapeHtml customerName ++ preparingHtml_2
          ++ flat_map (fun item =>
                         itemHtml_1 ++ num_to_string (quantity item) ++ itemHtml_2
                         ++ escapeHtml (name item) ++ itemHtml_3) items
          ++ preparingHtml_3 ++ orderUrl ++ preparingHtml_4).
Proof.
  split; [exact escapeHtml_entities|]. split; [|split].
  - intros text. rewrite escapeHtml_entities.
    induction text as [|c text IH]; simpl; [constructor|].
    apply Forall_app. split; [apply html_entity_markup_free | exact IH].
  - intros. unfold generateReadyEmailTemplate. rewrite join_empty_sep.
    subst orderUrl. unfold itemHtml. rewrite flat_map_concat_map. reflexivity.
  - intros. unfold generatePreparingEmailTemplate. rewrite join_empty_sep.
    subst orderUrl. unfold itemHtml. rewrite flat_map_concat_map. reflexivity.
Qed.

(** C10: [close()] never throws.  On an object whose [transporter] was
    never assigned, as the constructor leaves it when the credentials
    are missing, it does nothing; on an object with a transporter it
    closes the transporter and logs one line. *)
Theorem C10_close_never_throws {Num : Type} `{JSNumber Num}
    (createTransport : TransportOptions Num -> Transporter) :
  (forall this w,
     exists w',
       close this w = (Return tt, w')
       /\ match transporter this with
          | None => w' = w
          | Some _ => w' = emits [TransportClose; Console Log MsgClosed] w
          end)
  /\ (forall w,
        credentials_missing (env w) = true ->
        exists this w',
          new_EmailNotificationService createTransport w = (Return this, w')
          /\ transporter this = None
          /\ close this w' = (Return tt, w')).
Proof.
  split.
  - intros this w. destruct (transporter this) as [t|] eqn:Ht.
    + rewrite (close_with_transporter _ _ _ Ht). eauto.
    + rewrite (close_without_transporter _ _ Ht). eauto.
  - intros w Hm. rewrite (constructor_without_credentials _ _ Hm).
    do 2 eexists. split; [reflexivity|]. split; reflexivity.
Qed.

(** C10 at an environment without credentials. *)
Lemma C10_witness_close_without_credentials :
  credentials_missing (env world_bare) = true
  /\ exists this w',
       new_EmailNotificationService (fun _ : TransportOptions IntNumber => always_sends)
         world_bare = (Return this, w')
       /\ transporter this = None
       /\ close this w' = (Return tt, w').
Proof.
  split; [reflexivity|].
  apply (proj2 (C10_close_never_throws
                  (fun _ : TransportOptions IntNumber => always_sends))).
  reflexivity.
Defined.

(** * Further properties of the code *)

(** ** isValidEmail *)

Lemma address_part_no_at s :
  address_part s -> count_occ N.eq_dec s at_sign = 0%nat.
Proof.
  intros [_ Hall]. induction Hall as [|c s Hc _ IH]; [reflexivity|].
  simpl. destruct (N.eq_dec c at_sign) as [->|_]; [discriminate Hc | exact IH].
Qed.

Lemma address_part_no_space s :
  address_part s -> Forall (fun c => is_space c = false) s.
Proof.
  intros [_ Hall]. induction Hall as [|c s Hc _ IH]; constructor; [|exact IH].
  unfold not_space_at in Hc. apply negb_true_iff, orb_false_iff in Hc. tauto.
Qed.

Lemma address_part_length s : address_part s -> (1 <= length s)%nat.
Proof. intros [Hne _]. destruct s; [congruence | simpl; lia]. Qed.

(** X1: an address that [isValidEmail] accepts holds exactly one at
    sign and no white space, and is at least five characters long. *)
Theorem X1_valid_address_one_at_no_space (email : jsstring) :
  isValidEmail (Some email) = true ->
  count_occ N.eq_dec email at_sign = 1%nat
  /\ Forall (fun c => is_space c = false) email
  /\ (5 <= length email)%nat.
Proof.
  intros Hv. apply isValidEmail_spec in Hv as (s & E & Hs). inversion E; subst s.
  destruct Hs as (l & d & t & -> & Hl & Hd & Ht).
  repeat split.
  - pose proof (address_part_no_at _ Hl) as Al.
    pose proof (address_part_no_at _ Hd) as Ad.
    pose proof (address_part_no_at _ Ht) as At.
    rewrite !count_occ_app. unfold codeunit in *. rewrite Al, Ad, At. reflexivity.
  - repeat (apply Forall_app; split); try (apply address_part_no_space; assumption);
      repeat constructor.
  - apply address_part_length in Hl, Hd, Ht. rewrite !length_app. simpl. lia.
Qed.

(** X1 at the address [ana@example.com]. *)
Lemma X1_witness_ana :
  isValidEmail ana_address = true
  /\ count_occ N.eq_dec (lit "ana@example.com") at_sign = 1%nat
  /\ Forall (fun c => is_space c = false) (lit "ana@example.com")
  /\ (5 <= length (lit "ana@example.com"))%nat.
Proof.
  assert (Hv : isValidEmail ana_address = true) by (vm_compute; reflexivity).
  split; [exact Hv|].
  exact (X1_valid_address_one_at_no_space (lit "ana@example.com") Hv).
Defined.

(** ** escapeHtml, further *)

Lemma html_entity_head c :
  html_special c = true ->
  exists second rest, html_entity c = 38 :: second :: rest
                      /\ (2 <= length (html_entity c))%nat.
Proof.
  unfold html_special, html_entity.
  repeat match goal with
         | |- context [?a =? ?b] =>
             destruct (N.eqb_spec a b) as [->|?];
             [intros _; do 2 eexists; split; [vm_compute; reflexivity | vm_compute; lia]|]
         end.
  intros Hf. discriminate Hf.
Qed.

Lemma html_entity_inj c1 c2 r1 r2 :
  html_entity c1 ++ r1 = html_entity c2 ++ r2 -> c1 = c2 /\ r1 = r2.
Proof.
  unfold html_entity.
  repeat match goal with
         | |- context [c1 =? ?b] => destruct (N.eqb_spec c1 b) as [->|?]
         end;
  repeat match goal with
         | |- context [c2 =? ?b] => destruct (N.eqb_spec c2 b) as [->|?]
         end;
  intros E; vm_compute in E; inversion E; subst; try congruence; auto.
Qed.

Lemma escapeHtml_length_ge text : (length text <= length (escapeHtml text))%nat.
Proof.
  rewrite escapeHtml_entities.
  induction text as [|c text IH]; simpl; [lia|].
  rewrite length_app.
  assert (1 <= length (html_entity c))%nat; [|lia].
  destruct (html_special c) eqn:Ec.
  - destruct (html_entity_head c Ec) as (_ & _ & _ & Hl). lia.
  - rewrite (html_entity_other _ Ec). simpl. lia.
Qed.

Lemma html_entity_length_le c : (length (html_entity c) <= 6)%nat.
Proof.
  unfold html_entity.
  repeat match goal with
         | |- context [?a =? ?b] =>
             destruct (N.eqb_spec a b) as [->|?]; [vm_compute; lia|]
         end.
  simpl. lia.
Qed.

(** X2: [escapeHtml] works character by character, so it distributes
    over concatenation, and it loses nothing: two texts with the same
    escaped form are the same text. *)
Theorem X2_escapeHtml_concat_and_injective :
  (forall a b, escapeHtml (a ++ b) = escapeHtml a ++ escapeHtml b)
  /\ (forall a b, escapeHtml a = escapeHtml b <-> a = b).
Proof.
  split.
  - intros a b. rewrite !escapeHtml_entities. apply flat_map_app.
  - intros a b. split; [|intros ->; reflexivity].
    rewrite !escapeHtml_entities. revert b.
    induction a as [|c a IH]; intros [|d b]; simpl; intros E.
    + reflexivity.
    + exfalso. pose proof (f_equal (@length _) E) as L. simpl in L.
      rewrite length_app in L.
      assert (1 <= length (html_entity d))%nat; [|lia].
      destruct (html_special d) eqn:Ed.
      * destruct (html_entity_head d Ed) as (_ & _ & _ & Hl). lia.
      * rewrite (html_entity_other _ Ed). simpl. lia.
    + exfalso. pose proof (f_equal (@length _) E) as L. simpl in L.
      rewrite length_app in L.
      assert (1 <= length (html_entity c))%nat; [|lia].
      destruct (html_special c) eqn:Ec.
      * destruct (html_entity_head c Ec) as (_ & _ & _ & Hl). lia.
      * rewrite (html_entity_other _ Ec). simpl. lia.
    + apply html_entity_inj in E as [-> E]. f_equal. apply IH. exact E.
Qed.

(** X3: [escapeHtml] returns its argument unchanged exactly when the
    argument holds none of the five characters; it never shortens a
    text and makes it at most six times as long. *)
Theorem X3_escapeHtml_fixed_points_and_length (text : jsstring) :
  (escapeHtml text = text <-> Forall (fun c => html_special c = false) text)
  /\ (length text <= length (escapeHtml text) <= 6 * length text)%nat.
Proof.
  split; [split|split].
  - induction text as [|c text IH]; [constructor|].
    intros E. rewrite escapeHtml_entities in E. simpl in E.
    destruct (html_special c) eqn:Ec.
    + exfalso. destruct (html_entity_head c Ec) as (second & rest & Eh & _).
      rewrite Eh in E. simpl in E. injection E as E1 E2.
      pose proof (f_equal (@length _) E2) as L. simpl in L. rewrite length_app in L.
      pose proof (escapeHtml_length_ge text) as G.
      rewrite escapeHtml_entities in G. lia.
    + rewrite (html_entity_other _ Ec) in E. simpl in E. injection E as E1.
      constructor; [exact Ec|]. apply IH. rewrite escapeHtml_entities. exact E1.
  - intros Hall. rewrite escapeHtml_entities.
    induction Hall as [|c text Hc _ IH]; [reflexivity|].
    simpl. rewrite (html_entity_other _ Hc), IH. reflexivity.
  - apply escapeHtml_length_ge.
  - rewrite escapeHtml_entities. induction text as [|c text IH]; simpl; [lia|].
    rewrite length_app. pose proof (html_entity_length_le c). lia.
Qed.

(** ** One call of a flow *)

Lemma or_str_nonempty a b : b <> [] -> or_str a b <> [].
Proof. intros Hb. destruct a as [[|c s]|]; simpl; [assumption|discriminate|assumption]. Qed.

Lemma default_from_nonempty : default_from <> [].
Proof. discriminate. Qed.

Lemma mailOptions_of_well_formed {Num : Type} `{JSNumber Num} type processEnv o c e
    (items : list (Item Num)) :
  isValidEmail e = true ->
  well_formed_payload (mailOptions_of type processEnv o c e items).
Proof.
  intros He. unfold well_formed_payload.
  destruct type; simpl; (split; [exact He|]);
    (split; [apply or_str_nonempty, default_from_nonempty | auto]).
Qed.

Lemma emits_emits evs1 evs2 w : emits evs2 (emits evs1 w) = emits (evs1 ++ evs2) w.
Proof. unfold emits. simpl. rewrite app_assoc. reflexivity. Qed.

Lemma emits_nil w : emits [] w = w.
Proof. destruct w. unfold emits. simpl. rewrite app_nil_r. reflexivity. Qed.

(** What one call of [notify] adds to the world. *)
Lemma notify_frame {Num : Type} `{JSNumber Num} type this o c e
    (i : maybe (list (Item Num))) w :
  exists b evs,
    notify type this o c e i w = (Return b, emits evs w)
    /\ (length evs <= 5)%nat
    /\ forallb request_event evs = true
    /\ (length (sends evs) <= 1)%nat
    /\ (successes [b] <= length (sends evs))%nat
    /\ Forall well_formed_payload (sends evs).
Proof.
  unfold notify. destruct (rejected this o c e i) eqn:Hr.
  - exists false, [Console Warn (guard_warning this o c e i)].
    simpl. repeat split; try lia. constructor.
  - pose proof (rejected_false _ _ _ _ _ Hr) as (_ & He & cu & it & its & _ & -> & _).
    destruct (transporter this) as [t|].
    + cbv zeta.
      pose proof (mailOptions_of_well_formed type (env w) o c e (it :: its) He) as Hwf.
      destruct (sendMail_answer t (trace w) _) as [info|error].
      * eexists true, _. split; [reflexivity|].
        destruct type; simpl; repeat split; try lia;
          (constructor; [exact Hwf | constructor]).
      * eexists false, _. split; [reflexivity|].
        simpl. repeat split; try lia. constructor; [exact Hwf | constructor].
    + exists false, [Console Err (MsgSendError (to_str o) (message TypeError))].
      simpl. repeat split; try lia. constructor.
Qed.



(** X5: a call of either flow never throws, leaves [process.env] as it
    is and only appends to what happened before: at most five events
    (four for the preparing flow), all of them console lines or
    [sendMail] calls, with at most one [sendMail] among them; it never
    verifies and never closes the transporter. *)
Theorem X5_flow_appends_few_events {Num : Type} `{JSNumber Num}
    (this : EmailNotificationService)
    (orderNumber customerName customerEmail : maybe jsstring)
    (items : maybe (list (Item Num))) (w : World) :
  (exists b evs,
     sendOrderReadyNotification this orderNumber customerName customerEmail items w
     = (Return b, {| env := env w; trace := trace w ++ evs |})
     /\ (length evs <= 5)%nat
     /\ forallb request_event evs = true
     /\ (invocations evs <= 1)%nat)
  /\ (exists b evs,
        sendOrderPreparingNotification this orderNumber customerName customerEmail items w
        = (Return b, {| env := env w; trace := trace w ++ evs |})
        /\ (length evs <= 4)%nat
        /\ forallb request_event evs = true
        /\ (invocations evs <= 1)%nat).
Proof.
  rewrite ready_is_notify, preparing_is_notify. split.
  - destruct (notify_frame ready this orderNumber customerName customerEmail items w)
      as (b & evs & E & Hl & Hq & Hs & _).
    exists b, evs. auto.
  - unfold notify.
    destruct (rejected this orderNumber customerName customerEmail items) eqn:Hr.
    + do 2 eexists. split; [reflexivity|].
      unfold invocations; simpl; repeat split; first [lia | reflexivity].
    + destruct items as [itemList|], (transporter this) as [t|];
        try (do 2 eexists; split; [reflexivity|];
             unfold invocations; simpl; repeat split; first [lia | reflexivity]).
      cbv zeta. destruct (sendMail_answer t (trace w) _);
        do 2 eexists; (split; [reflexivity|]);
        unfold invocations; simpl; repeat split; first [lia | reflexivity].
Qed.

(** ** Histories, in general *)

Lemma verifyConnection_no_transporter this w :
  transporter this = None ->
  verifyConnection this w
  = (Return {| transporter := None; isConfigured := false |},
     emits [Console Err (MsgVerifyError (message TypeError));
            Console Warn MsgWillNotSend] w).
Proof.
  intros Ht. unfold verifyConnection. run_body. rewrite Ht.
  destruct w as [en tr]. run_body. rewrite <- app_assoc. reflexivity.
Qed.

(** What [verifyConnection] does, in all three cases. *)
Lemma verifyConnection_frame this w :
  exists this' evs,
    verifyConnection this w = (Return this', emits evs w)
    /\ transporter this' = transporter this
    /\ sends evs = []
    /\ isConfigured this'
       = isConfigured this
         && match transporter this with
            | Some t =>
                match verify_answer t (trace w) with
                | None => true
                | Some _ => false
                end
            | None => false
            end.
Proof.
  destruct (transporter this) as [t|] eqn:Ht.
  - destruct (verify_answer t (trace w)) as [error|] eqn:Hv.
    + rewrite (verifyConnection_fails _ _ _ _ Ht Hv).
      do 2 eexists. split; [reflexivity|]. simpl.
      rewrite andb_false_r. auto.
    + rewrite (verifyConnection_succeeds _ _ _ Ht Hv).
      do 2 eexists. split; [reflexivity|]. simpl.
      rewrite andb_true_r. auto.
  - rewrite (verifyConnection_no_transporter _ _ Ht).
    do 2 eexists. split; [reflexivity|]. simpl.
    rewrite andb_false_r. auto.
Qed.

(** What the settling of the pending verification does. *)
Lemma verifyConnection_resume_frame this w :
  exists this' evs,
    verifyConnection_resume this w = (Return this', emits evs w)
    /\ transporter this' = transporter this
    /\ sends evs = []
    /\ (isConfigured this' = false \/ isConfigured this = true).
Proof.
  assert (Hd : forall b : bool, b = false \/ b = true) by (intros []; auto).
  destruct (transporter this) as [t|] eqn:Ht.
  - destruct (verify_answer t (trace w)) as [error|] eqn:Hv.
    + rewrite (verifyConnection_resume_fails _ _ _ _ Ht Hv).
      do 2 eexists. split; [reflexivity|]. simpl. auto.
    + rewrite (verifyConnection_resume_succeeds _ _ _ Ht Hv).
      do 2 eexists. split; [reflexivity|]. simpl. auto.
  - rewrite (verifyConnection_resume_idle _ _ Ht).
    exists this, []. rewrite emits_nil. auto.
Qed.

Lemma close_frame this w :
  exists evs, close this w = (Return tt, emits evs w) /\ sends evs = [].
Proof.
  destruct (transporter this) as [t|] eqn:Ht.
  - rewrite (close_with_transporter _ _ _ Ht). eexists. split; reflexivity.
  - rewrite (close_without_transporter _ _ Ht). exists []. rewrite emits_nil. auto.
Qed.

Lemma step_frame {Num : Type} `{JSNumber Num} this (op : Op Num) w :
  exists this' bs evs,
    step this op w = (Return (this', bs), emits evs w)
    /\ length bs = (if is_request op then 1 else 0)%nat
    /\ transporter this' = transporter this
    /\ (isConfigured this' = false \/ isConfigured this = true)
    /\ (length (sends evs) <= length bs)%nat
    /\ (successes bs <= length (sends evs))%nat
    /\ Forall well_formed_payload (sends evs).
Proof.
  destruct op as [o c e i|o c e i| |]; simpl; unfold bind.
  - rewrite ready_is_notify.
    destruct (notify_frame ready this o c e i w) as (b & evs & E & _ & _ & Hs & Hb & Hwf).
    rewrite E. exists this, [b], evs. split; [reflexivity|].
    repeat split; auto. destruct (isConfigured this); auto.
  - rewrite preparing_is_notify.
    destruct (notify_frame preparing this o c e i w)
      as (b & evs & E & _ & _ & Hs & Hb & Hwf).
    rewrite E. exists this, [b], evs. split; [reflexivity|].
    repeat split; auto. destruct (isConfigured this); auto.
  - destruct (verifyConnection_resume_frame this w) as (this' & evs & E & Ht & Hs & Hm).
    rewrite E. exists this', [], evs. split; [reflexivity|].
    rewrite Hs. simpl. repeat split; auto.
  - destruct (close_frame this w) as (evs & E & Hs).
    rewrite E. exists this, [], evs. split; [reflexivity|].
    assert (Hm : isConfigured this = false \/ isConfigured this = true).
    { destruct (isConfigured this); auto. }
    rewrite Hs. simpl. repeat split; auto.
Qed.

Lemma successes_app bs1 bs2 : successes (bs1 ++ bs2) = (successes bs1 + successes bs2)%nat.
Proof.
  induction bs1 as [|[] bs1 IH]; simpl; [reflexivity| |]; rewrite IH; reflexivity.
Qed.

Lemma run_frame {Num : Type} `{JSNumber Num} (ops : list (Op Num)) :
  forall this w,
    exists this' bs evs,
      run this ops w = (Return (this', bs), emits evs w)
      /\ length bs = requests ops
      /\ transporter this' = transporter this
      /\ (isConfigured this' = false \/ isConfigured this = true)
      /\ (length (sends evs) <= requests ops)%nat
      /\ (successes bs <= length (sends evs))%nat
      /\ Forall well_formed_payload (sends evs).
Proof.
  induction ops as [|op rest IH]; intros this w.
  - exists this, [], []. rewrite emits_nil. simpl. repeat split; auto.
    destruct (isConfigured this); auto.
  - destruct (step_frame this op w)
      as (this1 & bs1 & evs1 & E1 & Hl1 & Ht1 & Hc1 & Hs1 & Hb1 & Hw1).
    destruct (IH this1 (emits evs1 w))
      as (this2 & bs2 & evs2 & E2 & Hl2 & Ht2 & Hc2 & Hs2 & Hb2 & Hw2).
    exists this2, (bs1 ++ bs2), (evs1 ++ evs2).
    rewrite run_cons, E1. cbn [fst snd]. rewrite E2. cbn [fst snd].
    rewrite emits_emits, sends_app, !length_app, successes_app.
    split; [reflexivity|].
    assert (Hreq : requests (op :: rest)
                   = ((if is_request op then 1 else 0) + requests rest)%nat).
    { simpl. destruct (is_request op); reflexivity. }
    rewrite Hreq. repeat split; try lia.
    + congruence.
    + destruct Hc2 as [Hc2|Hc2]; [left; exact Hc2 | rewrite Hc2 in Hc1].
      destruct Hc1 as [Hc1|Hc1]; [discriminate | right; exact Hc1].
    + apply Forall_app. split; assumption.
Qed.

(** X6: through any history of requests, verification and closing,
    every payload handed to the transport has a recipient that passed
    [isValidEmail], a sender that is not empty and one of the two
    subjects. *)
Theorem X6_only_well_formed_payloads_are_sent {Num : Type} `{JSNumber Num}
    (this : EmailNotificationService) (ops : list (Op Num)) (w : World) :
  exists this' bs evs,
    run this ops w = (Return (this', bs), {| env := env w; trace := trace w ++ evs |})
    /\ Forall well_formed_payload (sends evs).
Proof.
  destruct (run_frame ops this w) as (this' & bs & evs & E & _ & _ & _ & _ & _ & Hwf).
  exists this', bs, evs. split; [exact E | exact Hwf].
Qed.

(** X8: [verifyConnection] never throws and never calls [sendMail]; it
    keeps the transporter, and afterwards the object is configured
    exactly when it was configured before and [verify] resolved.  On an
    object without a transporter the call on [undefined] is caught like
    a failed verification. *)
Theorem X8_verifyConnection_only_lowers_isConfigured
    (this : EmailNotificationService) (w : World) :
  exists this' evs,
    verifyConnection this w
    = (Return this', {| env := env w; trace := trace w ++ evs |})
    /\ transporter this' = transporter this
    /\ invocations evs = 0%nat
    /\ isConfigured this'
       = isConfigured this
         && match transporter this with
            | Some t =>
                match verify_answer t (trace w) with
                | None => true
                | Some _ => false
                end
            | None => false
            end.
Proof.
  destruct (verifyConnection_frame this w) as (this' & evs & E & Ht & Hs & Hc).
  exists this', evs. unfold invocations. rewrite Hs. auto.
Qed.

(** X9: every history of requests, verification and closing runs to
    its end without an exception and gives one boolean per request.
    The transporter of the object is never replaced, an unconfigured
    object never becomes configured, there is at most one [sendMail]
    call per request, and no more answers [true] than [sendMail]
    calls. *)
Theorem X9_history_invariants {Num : Type} `{JSNumber Num}
    (this : EmailNotificationService) (ops : list (Op Num)) (w : World) :
  exists this' bs evs,
    run this ops w = (Return (this', bs), {| env := env w; trace := trace w ++ evs |})
    /\ length bs = requests ops
    /\ transporter this' = transporter this
    /\ (isConfigured this' = false \/ isConfigured this = true)
    /\ (invocations evs <= requests ops)%nat
    /\ (successes bs <= invocations evs)%nat.
Proof.
  destruct (run_frame ops this w)
    as (this' & bs & evs & E & Hl & Ht & Hc & Hs & Hb & _).
  exists this', bs, evs. unfold invocations. auto 10.
Qed.

(** ** The constructor, in general *)

Lemma credentials_present (processEnv : Env) :
  credentials_missing processEnv = false
  <-> exists h u p : jsstring,
        processEnv !! "SMTP_HOST"%string = Some h
        /\ processEnv !! "SMTP_USER"%string = Some u
        /\ processEnv !! "SMTP_PASSWORD"%string = Some p
        /\ h <> [] /\ u <> [] /\ p <> [].
Proof.
  unfold credentials_missing. split.
  - intros Hm. apply orb_false_iff in Hm as [Hm Hp].
    apply orb_false_iff in Hm as [Hh Hu].
    destruct (processEnv !! "SMTP_HOST"%string) as [[|? ?]|]; try discriminate.
    destruct (processEnv !! "SMTP_USER"%string) as [[|? ?]|]; try discriminate.
    destruct (processEnv !! "SMTP_PASSWORD"%string) as [[|? ?]|]; try discriminate.
    do 3 eexists. repeat split; discriminate.
  - intros (h & u & p & -> & -> & -> & Hh & Hu & Hp).
    destruct h, u, p; try congruence. reflexivity.
Qed.

(** X7: the constructor never throws and never calls [sendMail].  It
    yields a configured object exactly when [SMTP_HOST], [SMTP_USER]
    and [SMTP_PASSWORD] are all set to non-empty strings; it then logs
    nothing, holds the transporter made from those settings, with
    [secure] on exactly when [SMTP_SECURE] is the string [true], and
    has called [verify] on it once, without waiting for the answer.
    Otherwise it logs two warnings, leaves the transporter unassigned
    and calls nothing. *)
Theorem X7_constructor_configured_iff_credentials {Num : Type} `{JSNumber Num}
    (createTransport : TransportOptions Num -> Transporter) (w : World) :
  let present :=
    exists h u p : jsstring,
      env w !! "SMTP_HOST"%string = Some h
      /\ env w !! "SMTP_USER"%string = Some u
      /\ env w !! "SMTP_PASSWORD"%string = Some p
      /\ h <> [] /\ u <> [] /\ p <> [] in
  exists this evs,
    new_EmailNotificationService createTransport w
    = (Return this, {| env := env w; trace := trace w ++ evs |})
    /\ invocations evs = 0%nat
    /\ (isConfigured this = true <-> present)
    /\ (present ->
        evs = [Verify]
        /\ transporter this = Some (createTransport (transport_options (env w)))
        /\ host _ (transport_options (env w)) = env w !! "SMTP_HOST"%string
        /\ auth_user _ (transport_options (env w)) = env w !! "SMTP_USER"%string
        /\ auth_pass _ (transport_options (env w)) = env w !! "SMTP_PASSWORD"%string
        /\ (secure _ (transport_options (env w)) = true
            <-> env w !! "SMTP_SECURE"%string = Some (lit "true")))
    /\ (~ present ->
        evs = [Console Warn MsgNoCredentials; Console Warn MsgNoCredentialsHint]
        /\ transporter this = None).
Proof.
  intros present.
  destruct (credentials_missing (env w)) eqn:Hm.
  - assert (Hnp : ~ present).
    { intros Hp. apply credentials_present in Hp. congruence. }
    rewrite (constructor_without_credentials _ _ Hm).
    do 2 eexists. split; [reflexivity|]. split; [reflexivity|].
    split; [split; [discriminate | intros Hp; contradiction]|].
    split; [intros Hp; contradiction | intros _; split; reflexivity].
  - assert (Hp : present) by (apply credentials_present; exact Hm).
    exists {| transporter := Some (createTransport (transport_options (env w)));
              isConfigured := true |}, [Verify].
    split.
    { unfold new_EmailNotificationService, initializeTransporter,
        verifyConnection_start.
      run_body. destruct w as [en tr]. run_body. cbn [env] in Hm.
      unfold credentials_missing in Hm. rewrite Hm. reflexivity. }
    split; [reflexivity|]. split; [split; auto|].
    split; [|intros Hn; contradiction].
    intros _. repeat split; try reflexivity.
    + apply bool_decide_eq_true_1.
    + apply bool_decide_eq_true_2.
Qed.

(** X7 at an environment with the credentials, port 465 and
    [SMTP_SECURE] set to [true], in the integer fragment of numbers. *)
Lemma X7_witness_secure_port :
  (exists h u p : jsstring,
     env world_secure !! "SMTP_HOST"%string = Some h
     /\ env world_secure !! "SMTP_USER"%string = Some u
     /\ env world_secure !! "SMTP_PASSWORD"%string = Some p
     /\ h <> [] /\ u <> [] /\ p <> [])
  /\ secure _ (transport_options (Num := IntNumber) (env world_secure)) = true
  /\ port _ (transport_options (Num := IntNumber) (env world_secure)) = Int 465
  /\ port _ (transport_options (Num := IntNumber) (env world_smtp)) = Int 587
  /\ exists this,
       new_EmailNotificationService (fun _ : TransportOptions IntNumber => always_sends)
         world_secure = (Return this, emit Verify world_secure)
       /\ transporter this = Some always_sends.
Proof.
  assert (Hp : exists h u p : jsstring,
     env world_secure !! "SMTP_HOST"%string = Some h
     /\ env world_secure !! "SMTP_USER"%string = Some u
     /\ env world_secure !! "SMTP_PASSWORD"%string = Some p
     /\ h <> [] /\ u <> [] /\ p <> []).
  { exists (lit "smtp.gmail.com"), (lit "kitchen@gmail.com"), (lit "app-password").
    repeat split; try (vm_compute; reflexivity); discriminate. }
  split; [exact Hp|].
  split; [vm_compute; reflexivity|].
  split; [vm_compute; reflexivity|].
  split; [vm_compute; reflexivity|].
  destruct (X7_constructor_configured_iff_credentials
              (fun _ : TransportOptions IntNumber => always_sends) world_secure)
    as (this & evs & E & _ & _ & Hyes & _).
  destruct (Hyes Hp) as (-> & Ht & _).
  exists this. split; [exact E | exact Ht].
Defined.

(** ** Closing *)

(** X10: [close()] does not change the object and is not guarded
    against repetition: two calls close the transporter twice, and a
    later request that passes the guards still calls [sendMail] on the
    closed transporter. *)
Theorem X10_close_leaves_the_service_in_use {Num : Type} `{JSNumber Num}
    (this : EmailNotificationService) (t : Transporter)
    (orderNumber customerName customerEmail : maybe jsstring)
    (items : list (Item Num)) (w : World) :
  rejected this orderNumber customerName customerEmail (Some items) = false ->
  transporter this = Some t ->
  exists b rest,
    run this
      [OpClose; OpClose; OpReady orderNumber customerName customerEmail (Some items)] w
    = (Return (this, [b]),
       {| env := env w;
          trace := trace w
                   ++ [TransportClose; Console Log MsgClosed;
                       TransportClose; Console Log MsgClosed;
                       SendMail (ready_mailOptions (env w) orderNumber customerName
                                   customerEmail items)]
                   ++ rest |}).
Proof.
  intros Hr Ht.
  rewrite run_cons. cbn [step]. unfold bind at 1.
  rewrite (close_with_transporter _ _ _ Ht). cbn [ret fst snd].
  rewrite run_cons. cbn [step]. unfold bind at 1.
  rewrite (close_with_transporter _ _ _ Ht). cbn [ret fst snd].
  rewrite run_cons. cbn [step]. unfold bind at 1.
  rewrite (ready_attempt _ _ _ _ _ _ _ Hr Ht). cbv zeta.
  rewrite !emits_emits. cbn [env emits trace].
  destruct (sendMail_answer t _ _) as [info|error]; cbn [ret run fst snd app];
    rewrite !emits_emits; unfold emits; cbn [env trace];
    do 2 eexists; f_equal; f_equal; rewrite <- !app_assoc; cbn [app]; reflexivity.
Qed.

(** X10 at a transport that accepts every message. *)
Lemma X10_witness_send_after_close :
  rejected (service_with always_sends) ORD_1 Ana ana_address (Some tacos) = false
  /\ transporter (service_with always_sends) = Some always_sends
  /\ exists b rest,
       run (service_with always_sends)
         [OpClose; OpClose; OpReady ORD_1 Ana ana_address (Some tacos)] world_smtp
       = (Return (service_with always_sends, [b]),
          {| env := env world_smtp;
             trace := trace world_smtp
                      ++ [TransportClose; Console Log MsgClosed;
                          TransportClose; Console Log MsgClosed;
                          SendMail (ready_mailOptions (env world_smtp) ORD_1 Ana
                                      ana_address tacos)]
                      ++ rest |}).
Proof.
  assert (Hr : rejected (service_with always_sends) ORD_1 Ana ana_address (Some tacos)
               = false) by (vm_compute; reflexivity).
  split; [exact Hr|]. split; [reflexivity|].
  exact (X10_close_leaves_the_service_in_use (service_with always_sends) always_sends
           ORD_1 Ana ana_address tacos world_smtp Hr eq_refl).
Defined.

(** ** The rendered bodies *)

Lemma markup_count_app s1 s2 :
  markup_count (s1 ++ s2) = (markup_count s1 + markup_count s2)%nat.
Proof.
  induction s1 as [|c s1 IH]; simpl; [reflexivity|].
  destruct (markup_free c); rewrite IH; reflexivity.
Qed.

Lemma markup_count_free s :
  Forall (fun c => markup_free c = true) s -> markup_count s = 0%nat.
Proof.
  induction 1 as [|c s Hc _ IH]; simpl; [reflexivity|]. rewrite Hc. exact IH.
Qed.

Lemma markup_count_escapeHtml text : markup_count (escapeHtml text) = 0%nat.
Proof.
  apply markup_count_free. rewrite escapeHtml_entities.
  induction text as [|c text IH]; simpl; [constructor|].
  apply Forall_app. split; [apply html_entity_markup_free | exact IH].
Qed.

Lemma markup_count_items {Num : Type} `{JSNumber Num} (items : list (Item Num)) :
  forall items' : list (Item Num),
    map quantity items = map quantity items' ->
    markup_count (concat (map itemHtml items))
    = markup_count (concat (map itemHtml items')).
Proof.
  induction items as [|item items IH]; intros [|item' items'] E;
    try discriminate; [reflexivity|].
  cbn [map] in E. injection E as Eq Erest.
  cbn [map concat]. rewrite !markup_count_app. rewrite (IH items' Erest).
  unfold itemHtml. rewrite !markup_count_app, !markup_count_escapeHtml, Eq.
  reflexivity.
Qed.

(** X11: the customer name and the item names cannot add markup to the
    HTML bodies: two renderings for the same order number and the same
    quantities hold the same number of less-than, greater-than, double
    quote and apostrophe characters, whatever the names are. *)
Theorem X11_names_add_no_markup {Num : Type} `{JSNumber Num}
    (processEnv : Env) (orderNumber customerName customerName' : jsstring)
    (items items' : list (Item Num)) :
  map quantity items = map quantity items' ->
  markup_count (generateReadyEmailTemplate processEnv orderNumber customerName items)
  = markup_count (generateReadyEmailTemplate processEnv orderNumber customerName' items')
  /\ markup_count (generatePreparingEmailTemplate processEnv orderNumber customerName
                     items)
     = markup_count (generatePreparingEmailTemplate processEnv orderNumber customerName'
                       items').
Proof.
  intros Eq. pose proof (markup_count_items items items' Eq) as Ei.
  unfold generateReadyEmailTemplate, generatePreparingEmailTemplate. cbv zeta.
  rewrite !join_empty_sep, !markup_count_app, !markup_count_escapeHtml, Ei.
  split; reflexivity.
Qed.

(** X11 at two orders of two tacos, one of them with names full of
    markup. *)
Lemma X11_witness_hostile_names :
  let hostile : list (Item IntNumber) :=
    [ {| name := lit "<script>alert('x')</script>"; quantity := Int 2; price := None |} ] in
  map quantity tacos = map quantity hostile
  /\ markup_count (generateReadyEmailTemplate smtp_env (lit "ORD-1") (lit "Ana") tacos)
     = markup_count (generateReadyEmailTemplate smtp_env (lit "ORD-1")
                       (lit "<b>Ana</b>") hostile)
  /\ markup_count (generatePreparingEmailTemplate smtp_env (lit "ORD-1") (lit "Ana") tacos)
     = markup_count (generatePreparingEmailTemplate smtp_env (lit "ORD-1")
                       (lit "<b>Ana</b>") hostile).
Proof.
  intros hostile. split; [reflexivity|].
  apply (X11_names_add_no_markup smtp_env (lit "ORD-1") (lit "Ana") (lit "<b>Ana</b>")
           tacos hostile).
  reflexivity.
Defined.

(** X12: of [process.env] the three renderers read [FRONTEND_URL] and
    nothing else, and an empty [FRONTEND_URL] counts as none: setting
    any other variable, or setting [FRONTEND_URL] to the empty string
    in place of leaving it unset, changes no body. *)
Theorem X12_renderers_read_only_FRONTEND_URL {Num : Type} `{JSNumber Num}
    (processEnv : Env) (key : string) (value : jsstring)
    (orderNumber customerName : jsstring) (items : list (Item Num))
    (type : EmailType) :
  key <> "FRONTEND_URL"%string ->
  let changed := <[key := value]> processEnv in
  let blank := <["FRONTEND_URL"%string := []]> processEnv in
  let unset := delete "FRONTEND_URL"%string processEnv in
  (generatePlainTextEmail changed orderNumber customerName items type
   = generatePlainTextEmail processEnv orderNumber customerName items type
   /\ generateReadyEmailTemplate changed orderNumber customerName items
      = generateReadyEmailTemplate processEnv orderNumber customerName items
   /\ generatePreparingEmailTemplate changed orderNumber customerName items
      = generatePreparingEmailTemplate processEnv orderNumber customerName items)
  /\ (generatePlainTextEmail blank orderNumber customerName items type
      = generatePlainTextEmail unset orderNumber customerName items type
      /\ generateReadyEmailTemplate blank orderNumber customerName items
         = generateReadyEmailTemplate unset orderNumber customerName items
      /\ generatePreparingEmailTemplate blank orderNumber customerName items
         = generatePreparingEmailTemplate unset orderNumber customerName items).
Proof.
  intros Hk changed blank unset. subst changed blank unset.
  unfold generatePlainTextEmail, generateReadyEmailTemplate,
    generatePreparingEmailTemplate. cbv zeta.
  rewrite (lookup_insert_ne processEnv key "FRONTEND_URL"%string value Hk).
  rewrite lookup_insert_eq, lookup_delete_eq.
  repeat split; reflexivity.
Qed.

(** X12 at the variable [EMAIL_FROM]. *)
Lemma X12_witness_other_variable :
  "EMAIL_FROM"%string <> "FRONTEND_URL"%string
  /\ generatePlainTextEmail (<["EMAIL_FROM"%string := kitchen_sender]> smtp_env)
       (lit "ORD-1") (lit "Ana") tacos ready
     = generatePlainTextEmail smtp_env (lit "ORD-1") (lit "Ana") tacos ready
  /\ generateReadyEmailTemplate (<["FRONTEND_URL"%string := []]> smtp_env)
       (lit "ORD-1") (lit "Ana") tacos
     = generateReadyEmailTemplate (delete "FRONTEND_URL"%string smtp_env)
         (lit "ORD-1") (lit "Ana") tacos.
Proof.
  assert (Hk : "EMAIL_FROM"%string <> "FRONTEND_URL"%string) by discriminate.
  split; [exact Hk|].
  pose proof (X12_renderers_read_only_FRONTEND_URL smtp_env "EMAIL_FROM"%string
                kitchen_sender (lit "ORD-1") (lit "Ana") tacos ready Hk)
    as [(Ht & _ & _) (_ & Hh & _)].
  split; [exact Ht | exact Hh].
Defined.

(** ** The guards, one by one *)

(** X13: a rejected request logs exactly one warning, and the guards
    are tried in a fixed order.  An unconfigured object warns about the
    configuration whatever the arguments are; a configured object given
    an address [isValidEmail] refuses warns about the address, quoting
    it; only then does a missing order number, customer name or item
    list give the incomplete-data warning. *)
Theorem X13_guards_in_order {Num : Type} `{JSNumber Num}
    (this : EmailNotificationService)
    (orderNumber customerName customerEmail : maybe jsstring)
    (items : maybe (list (Item Num))) (w : World) :
  let both_log msg :=
    sendOrderReadyNotification this orderNumber customerName customerEmail items w
    = (Return false, emit (Console Warn msg) w)
    /\ sendOrderPreparingNotification this orderNumber customerName customerEmail items w
       = (Return false, emit (Console Warn msg) w) in
  (isConfigured this = false ->
   both_log (MsgNotConfigured (to_str orderNumber)))
  /\ (isConfigured this = true -> isValidEmail customerEmail = false ->
      both_log (MsgInvalidEmail (to_str orderNumber) (to_str customerEmail)))
  /\ (isConfigured this = true -> isValidEmail customerEmail = true ->
      not_str orderNumber || not_str customerName || no_items items = true ->
      both_log MsgIncomplete).
Proof.
  intros both_log. subst both_log. cbv beta.
  split; [|split].
  - intros Hc.
    assert (Hr : rejected this orderNumber customerName customerEmail items = true)
      by (unfold rejected; rewrite Hc; reflexivity).
    rewrite (ready_rejected _ _ _ _ _ _ Hr), (preparing_rejected _ _ _ _ _ _ Hr).
    unfold guard_warning. rewrite Hc. split; reflexivity.
  - intros Hc He.
    assert (Hr : rejected this orderNumber customerName customerEmail items = true)
      by (unfold rejected; rewrite Hc, He; reflexivity).
    rewrite (ready_rejected _ _ _ _ _ _ Hr), (preparing_rejected _ _ _ _ _ _ Hr).
    unfold guard_warning. rewrite Hc, He. split; reflexivity.
  - intros Hc He Hd.
    assert (Hr : rejected this orderNumber customerName customerEmail items = true)
      by (unfold rejected; rewrite Hc, He, Hd; reflexivity).
    rewrite (ready_rejected _ _ _ _ _ _ Hr), (preparing_rejected _ _ _ _ _ _ Hr).
    unfold guard_warning. rewrite Hc, He. split; reflexivity.
Qed.

(** X13 at an unconfigured object given a bad address and no
    customer name, at a configured object given a bad address, and at a
    configured object given no customer name. *)
Lemma X13_witness_each_guard :
  sendOrderReadyNotification (Num := IntNumber) service_unconfigured ORD_1 None
    (Some (lit "not-an-email")) (Some tacos) world_bare
  = (Return false, emit (Console Warn (MsgNotConfigured (lit "ORD-1"))) world_bare)
  /\ sendOrderReadyNotification (service_with always_sends) ORD_1 Ana
       (Some (lit "not-an-email")) (Some tacos) world_smtp
     = (Return false,
        emit (Console Warn (MsgInvalidEmail (lit "ORD-1") (lit "not-an-email")))
          world_smtp)
  /\ sendOrderPreparingNotification (service_with always_sends) ORD_1 None
       ana_address (Some tacos) world_smtp
     = (Return false, emit (Console Warn MsgIncomplete) world_smtp).
Proof.
  split; [|split].
  - apply (proj1 (X13_guards_in_order service_unconfigured ORD_1 None
                    (Some (lit "not-an-email")) (Some tacos) world_bare)).
    reflexivity.
  - apply (proj1 (proj2 (X13_guards_in_order (service_with always_sends) ORD_1 Ana
                           (Some (lit "not-an-email")) (Some tacos) world_smtp)));
      vm_compute; reflexivity.
  - apply (proj2 (proj2 (X13_guards_in_order (service_with always_sends) ORD_1
                           None ana_address (Some tacos) world_smtp)));
      vm_compute; reflexivity.
Defined.

(** ** The successful path *)

(** X14: when no guard fires and [sendMail] resolves, the ready flow
    appends the [sendMail] call and four console lines, the line with
    the message id twice, and the preparing flow appends the call and
    three lines; both resolve with [true]. *)
Theorem X14_trace_of_a_delivery {Num : Type} `{JSNumber Num}
    (this : EmailNotificationService) (t : Transporter)
    (orderNumber customerName customerEmail : maybe jsstring)
    (items : list (Item Num)) (w : World) (info info' : SentMessageInfo) :
  rejected this orderNumber customerName customerEmail (Some items) = false ->
  transporter this = Some t ->
  sendMail_answer t (trace w)
    (ready_mailOptions (env w) orderNumber customerName customerEmail items)
  = Sent info ->
  sendMail_answer t (trace w)
    (preparing_mailOptions (env w) orderNumber customerName customerEmail items)
  = Sent info' ->
  sendOrderReadyNotification this orderNumber customerName customerEmail (Some items) w
  = (Return true,
     {| env := env w;
        trace := trace w
                 ++ [SendMail (ready_mailOptions (env w) orderNumber customerName
                                 customerEmail items);
                     Console Log (MsgSent ready (to_str customerEmail));
                     Console Log (MsgOrder (to_str orderNumber));
                     Console Log (MsgMessageId (messageId info));
                     Console Log (MsgMessageId (messageId info))] |})
  /\ sendOrderPreparingNotification this orderNumber customerName customerEmail
       (Some items) w
     = (Return true,
        {| env := env w;
           trace := trace w
                    ++ [SendMail (preparing_mailOptions (env w) orderNumber customerName
                                    customerEmail items);
                        Console Log (MsgSent preparing (to_str customerEmail));
                        Console Log (MsgOrder (to_str orderNumber));
                        Console Log (MsgMessageId (messageId info'))] |}).
Proof.
  intros Hr Ht Ea Ea'.
  rewrite (ready_attempt _ _ _ _ _ _ _ Hr Ht), (preparing_attempt _ _ _ _ _ _ _ Hr Ht).
  cbv zeta. rewrite Ea, Ea'. split; reflexivity.
Qed.

(** X14 at a transport that accepts every message. *)
Lemma X14_witness_delivery :
  let id := {| messageId := lit "<1@deliciouskitchen.com>" |} in
  rejected (service_with always_sends) ORD_1 Ana ana_address (Some tacos) = false
  /\ transporter (service_with always_sends) = Some always_sends
  /\ sendOrderReadyNotification (service_with always_sends) ORD_1 Ana ana_address
       (Some tacos) world_smtp
     = (Return true,
        {| env := smtp_env;
           trace := [SendMail (ready_mailOptions smtp_env ORD_1 Ana ana_address tacos);
                     Console Log (MsgSent ready (lit "ana@example.com"));
                     Console Log (MsgOrder (lit "ORD-1"));
                     Console Log (MsgMessageId (messageId id));
                     Console Log (MsgMessageId (messageId id))] |}).
Proof.
  intros id.
  assert (Hr : rejected (service_with always_sends) ORD_1 Ana ana_address (Some tacos)
               = false) by (vm_compute; reflexivity).
  split; [exact Hr|]. split; [reflexivity|].
  exact (proj1 (X14_trace_of_a_delivery (service_with always_sends) always_sends
                  ORD_1 Ana ana_address tacos world_smtp id id Hr eq_refl eq_refl eq_refl)).
Defined.
